(** * The as-pect command line runner

    A shallow embedding of the test pipeline of [src/cli.ts] (function [asp],
    the branch that runs the compiler and the test suite) and of the
    [Expectation] contract declared in the assembly typings, together with
    the properties the specification states about them.

    Conventions.
    - JavaScript strings are [string]; a [Uint8Array] is a list of bytes;
      the number held by [count] is an integer [Z].
    - Objects used as maps ([binaries], [sourcemaps]) are [gmap]s; the flag
      object is the list of its entries in [Object.entries] order.
    - Everything the program obtains from Node, from its dependencies or
      from modules outside [src/] is a field of the class [Host].
    - [process.exit] ends a computation of the monad [Proc]; a run that ends
      without calling it leaves Node with exit status 0.
    - [regexp_test] of the host is [test] on an expression without the [g]
      and the [y] flag, which is a verdict on the text alone. An expression
      with its flags and its [lastIndex] is a [RegExpObject.t], and
      [testEntryFiles_with] resolves the files over a store of such objects.
    - The compiler is driven by a trace of events: the loop starts a unit,
      the compiler hands an artifact to the write sink of a unit, the
      compiler completes a unit. The callbacks run one at a time, in the
      order of the trace, which is any order. *)

From Stdlib Require Import ZArith QArith Qabs Qpower Floats Ascii.
From stdpp Require Import gmap strings list pretty.

Abbreviation bytes := (list Byte.byte).

(** ** JavaScript values and truthiness *)

Module Js.

Inductive value (O : Type) : Type :=
| Undefined
| Null
| Boolean (b : bool)
| Number (n : float)
| BigInt (z : Z)
| Str (s : string)
| Symbol (description : string)
| Object (o : O).

Arguments Undefined {O}.
Arguments Null {O}.
Arguments Boolean {O} b.
Arguments Number {O} n.
Arguments BigInt {O} z.
Arguments Str {O} s.
Arguments Symbol {O} description.
Arguments Object {O} o.

(** ECMAScript [ToBoolean]: [undefined], [null], [false], [+0], [-0],
    [NaN], [0n] and the empty string are falsy, all the rest is truthy. *)
Definition ToBoolean {O} (v : value O) : bool :=
  match v with
  | Undefined | Null => false
  | Boolean b => b
  | Number n => negb (PrimFloat.eqb n 0 || PrimFloat.is_nan n)
  | BigInt z => negb (z =? 0)%Z
  | Str s => negb (String.eqb s "")
  | Symbol _ => true
  | Object _ => true
  end.

(** [a || b] *)
Definition or {O} (a b : value O) : value O :=
  if ToBoolean a then a else b.

(** [a || d] for an optional property [a] whose values are all truthy
    (arrays, objects): only a missing property takes the default. *)
Definition or_default {A} (a : option A) (d : A) : A :=
  match a with
  | Some x => x
  | None => d
  end.

(** [a || d] for an optional string: a missing or empty string takes the
    default. *)
Definition or_string (a : option string) (d : string) : string :=
  match a with
  | Some s => if String.eqb s "" then d else s
  | None => d
  end.

End Js.

(** ** The host: Node, the dependencies, and the modules outside [src/] *)

Record Error := { message : string }.

Class Host := {
  (** [RegExp] objects and [RegExp.prototype.test], for expressions
      without the [g] and [y] flags, whose [test] keeps no state. *)
  RegExp : Type;
  regexp_test : RegExp → string → bool;
  (** [./test/TestReporter] and [./reporter/DefaultTestReporter] *)
  TestReporter : Type;
  DefaultTestReporter : TestReporter;
  (** the [imports] option of the configuration, and [{}] *)
  Imports : Type;
  no_imports : Imports;
  (** [./test/TestContext] and the loader: the value of [runner.pass]
      after [runner.createImports(imports)], [instantiateBuffer(binary,
      imports)] and [runner.run(wasm, reporter)]. *)
  runner_pass : Imports → bytes → TestReporter → bool;
  (** [glob.sync] on the file system of the run *)
  glob_sync : string → list string;
  (** a [chalk] template, applied to the text with its substitutions *)
  chalk : string → string;
  (** the banner of lines 32-41, with the version of the package *)
  banner : string;
  (** Node's [path] *)
  path_extname : string → string;
  path_dirname : string → string;
  path_basename : string → string → string;
  path_join : string → string → string;
  path_resolve : string → string → string;
  path_relative : string → string → string;
  process_cwd : string;
  __dirname : string;
}.

(** [lodash.uniq]: the values are visited in order and one is pushed on
    the result when the result does not hold it yet. *)
Definition uniq (array : list string) : list string :=
  fold_left
    (λ result value, if bool_decide (value ∈ result) then result else result ++ [value])
    array [].

(** ** Configuration ([./util/IConfiguration]) *)

(** Modelled from the spec: the interface [ICompilerFlags] of
    [./util/IConfiguration] is not under [src/]. A mapping from flag names
    to argument lists, given by the entries of the object in
    [Object.entries] order, which for flag names is the order of
    insertion. *)
Definition ICompilerFlags := list (string * list string).

Module IConfiguration.
Section Fields.
Context `{Host}.

(** Modelled from the spec: the interface [IConfiguration] of
    [./util/IConfiguration] is not under [src/]. Its options are those of
    section 6 of the specification, the properties that [cli.ts] reads,
    each of them optional. *)
Record t := {
  include : option (list string);
  add : option (list string);
  flags : option ICompilerFlags;
  disclude : option (list RegExp);
  reporter : option TestReporter;
  imports : option Imports;
}.

End Fields.
End IConfiguration.

(** ** Process state and the monad of the run *)

Inductive printed :=
| Text (s : string)
| Value (e : Error).

Inductive line :=
| Stdout (p : printed)
| Stderr (p : printed).

Record State := {
  console : list line;                (* oldest line first *)
  written : list (string * bytes);    (* [fs.writeFileSync] calls, oldest first *)
  compiled : list (list string);      (* argument lists given to [asc.main] *)
  instantiated : list bytes;          (* binaries given to [instantiateBuffer] *)
  binaries : gmap nat bytes;
  sourcemaps : gmap string bytes;
  failed : bool;
  count : Z;
}.

Definition initial : State :=
  {| console := []; written := []; compiled := []; instantiated := [];
     binaries := ∅; sourcemaps := ∅; failed := false; count := 0 |}.

Inductive outcome (A : Type) : Type :=
| Returned (a : A) (s : State)
| Exited (code : Z) (s : State).

Arguments Returned {A} a s.
Arguments Exited {A} code s.

Definition Proc (A : Type) : Type := State → outcome A.

Definition ret {A} (a : A) : Proc A := λ s, Returned a s.

Definition bind {A B} (c : Proc A) (k : A → Proc B) : Proc B :=
  λ s, match c s with
       | Returned a s' => k a s'
       | Exited code s' => Exited code s'
       end.

Notation "'let*' x ':=' c 'in' k" := (bind c (λ x, k))
  (at level 10, x name, c at level 100, k at level 200).
Notation "c '>>' k" := (bind c (λ _, k))
  (at level 100, k at level 200, right associativity).

Definition get : Proc State := λ s, Returned s s.
Definition modify (f : State → State) : Proc unit := λ s, Returned tt (f s).

(** [process.exit(code)] *)
Definition process_exit {A} (code : Z) : Proc A := λ s, Exited code s.

Definition put_line (l : line) (s : State) : State :=
  {| console := console s ++ [l]; written := written s; compiled := compiled s;
     instantiated := instantiated s; binaries := binaries s;
     sourcemaps := sourcemaps s; failed := failed s; count := count s |}.

Definition console_log (text : string) : Proc unit := modify (put_line (Stdout (Text text))).
Definition console_log_value (e : Error) : Proc unit := modify (put_line (Stdout (Value e))).
Definition console_error (e : Error) : Proc unit := modify (put_line (Stderr (Value e))).

(** [fs.writeFileSync(name, contents)] *)
Definition fs_writeFileSync (name : string) (contents : bytes) : Proc unit :=
  modify (λ s,
  {| console := console s; written := written s ++ [(name, contents)];
     compiled := compiled s; instantiated := instantiated s;
     binaries := binaries s; sourcemaps := sourcemaps s;
     failed := failed s; count := count s |}).

(** [asc.main(args, ...)]: the call is recorded; what the compiler does
    with it arrives later as events. *)
Definition asc_main (args : list string) : Proc unit :=
  modify (λ s,
  {| console := console s; written := written s;
     compiled := compiled s ++ [args]; instantiated := instantiated s;
     binaries := binaries s; sourcemaps := sourcemaps s;
     failed := failed s; count := count s |}).

Definition set_binary (i : nat) (contents : bytes) : Proc unit :=
  modify (λ s,
  {| console := console s; written := written s; compiled := compiled s;
     instantiated := instantiated s; binaries := <[i := contents]> (binaries s);
     sourcemaps := sourcemaps s; failed := failed s; count := count s |}).

Definition set_sourcemap (name : string) (contents : bytes) : Proc unit :=
  modify (λ s,
  {| console := console s; written := written s; compiled := compiled s;
     instantiated := instantiated s; binaries := binaries s;
     sourcemaps := <[name := contents]> (sourcemaps s);
     failed := failed s; count := count s |}).

Definition set_failed (b : bool) : Proc unit :=
  modify (λ s,
  {| console := console s; written := written s; compiled := compiled s;
     instantiated := instantiated s; binaries := binaries s;
     sourcemaps := sourcemaps s; failed := b; count := count s |}).

Definition set_count (n : Z) : Proc unit :=
  modify (λ s,
  {| console := console s; written := written s; compiled := compiled s;
     instantiated := instantiated s; binaries := binaries s;
     sourcemaps := sourcemaps s; failed := failed s; count := n |}).

Section Cli.
Context `{Host}.

(** [{}] *)
Definition empty_configuration : IConfiguration.t :=
  {| IConfiguration.include := None; IConfiguration.add := None;
     IConfiguration.flags := None; IConfiguration.disclude := None;
     IConfiguration.reporter := None; IConfiguration.imports := None |}.

(** What [require(configurationPath)] evaluates to: the exported value,
    an object being seen through the options it holds, or an exception. *)
Definition Module_exports := Js.value IConfiguration.t.

(** The options read off a truthy value: a primitive has none of them. *)
Definition options_of (v : Module_exports) : IConfiguration.t :=
  match v with
  | Js.Object o => o
  | _ => empty_configuration
  end.

(** The loader and the test context, on one binary. *)
Definition run_tests (imports : Imports) (binary : bytes) (reporter : TestReporter) : Proc bool :=
  modify (λ s,
  {| console := console s; written := written s; compiled := compiled s;
     instantiated := instantiated s ++ [binary]; binaries := binaries s;
     sourcemaps := sourcemaps s; failed := failed s; count := count s |})
  >> ret (runner_pass imports binary reporter).


(** ** Loading the configuration (lines 110-132) *)

Definition configurationPath (c config : option string) : string :=
  path_resolve process_cwd
    (Js.or_string c (Js.or_string config "./as-pect.config.js")).

(** [required] is what [require(configurationPath)] does: it throws or it
    evaluates to the exports of the module. Lines 117-126: the assignment
    inside the [try], and the [catch]. *)
Definition require_configuration (configurationPath : string)
    (required : Error + Module_exports) : Proc Module_exports :=
  match required with
  | inr exports => ret (Js.or exports (Js.Object empty_configuration))
  | inl ex =>
      console_log "" >>
      console_log (chalk ("{bgRedBright.black [Error]} There was a problem loading {bold ["
                          +:+ configurationPath +:+ "]}.")) >>
      console_log_value ex >>
      process_exit 1
  end.

(** Lines 128-132: the configuration must be an object. *)
Definition check_configuration (configurationPath : string)
    (configuration : Module_exports) : Proc unit :=
  if negb (Js.ToBoolean configuration) then
    console_log (chalk ("{bgRedBright.black [Error]} configuration at {bold ["
                        +:+ configurationPath +:+ "]} is null or not an object.")) >>
    process_exit 1
  else ret tt.

Definition load_configuration (configurationPath : string)
    (required : Error + Module_exports) : Proc Module_exports :=
  let* configuration := require_configuration configurationPath required in
  check_configuration configurationPath configuration >>
  ret configuration.

(** ** Options and their defaults (lines 134-145) *)

Definition include (configuration : IConfiguration.t) : list string :=
  Js.or_default (IConfiguration.include configuration)
    ["assembly/__tests__/**/*.spec.ts"].

Definition add (configuration : IConfiguration.t) : list string :=
  Js.or_default (IConfiguration.add configuration)
    ["assembly/__tests__/**/*.include.ts"].

Definition default_flags : ICompilerFlags :=
  [ ("--validate", []);
    ("--debug", []);
    ("--measure", []);
    ("--sourceMap", []);
    ("--binaryFile", ["output.wasm"]) ].

Definition flags (configuration : IConfiguration.t) : ICompilerFlags :=
  Js.or_default (IConfiguration.flags configuration) default_flags.

Definition disclude (configuration : IConfiguration.t) : list RegExp :=
  Js.or_default (IConfiguration.disclude configuration) [].

Definition reporter (configuration : IConfiguration.t) : TestReporter :=
  Js.or_default (IConfiguration.reporter configuration) DefaultTestReporter.

(** ** File resolution (lines 150-182) *)

(** [for (const pattern of patterns) files.push(...glob.sync(pattern))] *)
Definition glob_each (patterns : list string) : list string :=
  fold_left (λ files pattern, files ++ glob_sync pattern) patterns [].

Definition testEntryFiles (configuration : IConfiguration.t) : list string :=
  fold_left
    (λ testEntryFiles regexp,
       List.filter (λ file, negb (regexp_test regexp file)) testEntryFiles)
    (disclude configuration)
    (uniq (glob_each (include configuration))).

Definition entryPath : string := path_join __dirname "../assembly/index.ts".
Definition relativeEntryPath : string := path_relative process_cwd entryPath.

Definition addedTestEntryFiles (configuration : IConfiguration.t) : list string :=
  glob_each (add configuration) ++ [relativeEntryPath].

(** ** Compiler flags (lines 188-191) *)

Definition flagList (configuration : IConfiguration.t) : list string :=
  fold_left (λ args '(flag, options), args ++ flag :: options)
    (flags configuration) [].

(** ** The state of the run (lines 148, 174-175, 185-186) *)

Definition setup (configuration : IConfiguration.t) : Proc unit :=
  console_log ("including files " +:+ String.concat ", " (include configuration)) >>
  modify (λ s,
    {| console := console s; written := written s; compiled := compiled s;
       instantiated := instantiated s; binaries := ∅; sourcemaps := ∅;
       failed := false;
       count := Z.of_nat (length (testEntryFiles configuration)) |}).

(** ** One unit: the body of the [forEach] (lines 194-246) *)

(** The synchronous part: the log line and the call of the compiler. *)
Definition compile (configuration : IConfiguration.t) (file : string) (i : nat) : Proc unit :=
  console_log ("Compiling: " +:+ file +:+ " " +:+ pretty (i + 1) +:+ " / "
               +:+ pretty (length (testEntryFiles configuration))) >>
  asc_main (file :: addedTestEntryFiles configuration ++ flagList configuration).

(** The write sink given to the compiler. *)
Definition writeFile (file : string) (i : nat) (name : string) (contents : bytes) : Proc unit :=
  let ext := path_extname name in
  if String.eqb ext ".wasm" then set_binary i contents
  else if String.eqb ext ".map" then set_sourcemap name contents
  else
    let outfileName :=
      path_join (path_dirname file)
                (path_basename file (path_extname file) +:+ ext) in
    fs_writeFileSync outfileName contents.

(** [count -= 1] *)
Definition decrement : Proc unit :=
  let* s := get in set_count (count s - 1).

Definition compilation_error (file : string) : string :=
  "There was a compilation error when trying to create the wasm binary for file: "
  +:+ file +:+ ".".

Definition no_binary (file : string) : string :=
  "There was no output binary file: " +:+ file
  +:+ ". Did you forget to emit the binary?".

(** The completion callback given to the compiler. *)
Definition callback (configuration : IConfiguration.t) (file : string) (i : nat)
    (error : option Error) : Proc Z :=
  (match error with
   | Some e =>
       console_log (compilation_error file) >>
       console_error e >>
       decrement >>
       process_exit 1
   | None => ret tt
   end) >>
  let* s := get in
  match binaries s !! i with
  | None =>
      console_log (no_binary file) >>
      decrement >>
      process_exit 1
  | Some binary =>
      let* pass :=
        run_tests (Js.or_default (IConfiguration.imports configuration) no_imports)
                  binary (reporter configuration) in
      decrement >>
      let* s := get in
      set_failed (failed s || negb pass) >>
      let* s := get in
      if (count s =? 0)%Z && failed s then process_exit 1 else ret 0%Z
  end.

(** ** The run *)

(** What happens after the options are read: the loop starts the unit of
    index [i]; the compiler of unit [i] hands an artifact to the sink; the
    compiler of unit [i] completes. The order of the events is the
    compiler's. *)
Inductive event :=
| Compile (i : nat)
| WriteFile (i : nat) (name : string) (contents : bytes)
| Completed (i : nat) (error : option Error).

(** An event of index [i] runs the closure made for [testEntryFiles[i]]. *)
Definition handle (configuration : IConfiguration.t) (e : event) : Proc unit :=
  match e with
  | Compile i =>
      match testEntryFiles configuration !! i with
      | Some file => compile configuration file i
      | None => ret tt
      end
  | WriteFile i name contents =>
      match testEntryFiles configuration !! i with
      | Some file => writeFile file i name contents
      | None => ret tt
      end
  | Completed i error =>
      match testEntryFiles configuration !! i with
      | Some file => callback configuration file i error >> ret tt
      | None => ret tt
      end
  end.

Fixpoint run (configuration : IConfiguration.t) (trace : list event) : Proc unit :=
  match trace with
  | [] => ret tt
  | e :: trace => handle configuration e >> run configuration trace
  end.

(** [asp] on arguments that ask neither for the version, nor for the
    initialisation, nor for the help: the banner (lines 31-42), then the
    branch that runs the compiler and the test suite (lines 108-248). *)
Definition asp (c config : option string) (required : Error + Module_exports)
    (trace : list event) : Proc unit :=
  let configurationPath := configurationPath c config in
  console_log banner >>
  console_log (chalk ("{bgWhite.black [Log]} using configuration " +:+ configurationPath)) >>
  let* configuration := load_configuration configurationPath required in
  let configuration := options_of configuration in
  setup configuration >>
  run configuration trace.

(** The status Node exits with: the argument of [process.exit], or 0 when
    the run ends without it. *)
Definition exit_status {A} (o : outcome A) : Z :=
  match o with
  | Exited code _ => code
  | Returned _ _ => 0
  end.

Definition final_state {A} (o : outcome A) : State :=
  match o with
  | Exited _ s => s
  | Returned _ s => s
  end.

End Cli.

(** ** Regular expression objects (lines 169-171) *)

(** A [RegExp] object as [RegExp.prototype.test] sees it: the matcher of
    its pattern, which gives the end of the match that starts at an index
    of a text, its [global] and [sticky] flags, and its [lastIndex]. *)
Module RegExpObject.

Record t := {
  matcher : string → nat → option nat;
  global : bool;
  sticky : bool;
  lastIndex : nat;
}.

End RegExpObject.





Section ResolutionWithObjects.
Context `{Host}.


End ResolutionWithObjects.




(** ** The init script of [asp] (lines 45-89) *)

(** The files of the working directory and what the initialisation does
    to them: the paths for which [fs.existsSync] answers true, the
    [fs.mkdirSync] calls, the copies started by
    [fs.createReadStream(source).pipe(fs.createWriteStream(target))], which
    create their target only once the call stack is left, and the
    console. *)
Record Scaffold := {
  existing : gset string;
  made : list string;
  piped : list (string * string);
  output : list line;
}.

Definition say (text : string) (w : Scaffold) : Scaffold :=
  {| existing := existing w; made := made w; piped := piped w;
     output := output w ++ [Stdout (Text text)] |}.

Definition fs_existsSync (path : string) (w : Scaffold) : bool :=
  bool_decide (path ∈ existing w).

Definition fs_mkdirSync (path : string) (w : Scaffold) : Scaffold :=
  {| existing := {[path]} ∪ existing w; made := made w ++ [path];
     piped := piped w; output := output w |}.

Definition pipe (source target : string) (w : Scaffold) : Scaffold :=
  {| existing := existing w; made := made w;
     piped := piped w ++ [(source, target)]; output := output w |}.

(** The paths that exist once the copies are done. *)
Definition settled (w : Scaffold) : gset string :=
  existing w ∪ list_to_set (snd <$> piped w).

(** A working directory before [asp] runs. *)
Definition untouched (files : gset string) (shown : list line) : Scaffold :=
  {| existing := files; made := []; piped := []; output := shown |}.

Section Branches.
Context `{Host}.

(** Lines 51, 58, 64-65, 74-75, 83-84: [path.join] of several segments
    joins them from the left. *)
Definition assemblyFolder : string := path_join process_cwd "assembly".
Definition testFolder : string :=
  path_join (path_join process_cwd "assembly") "__tests__".
Definition exampleFile : string := path_join testFolder "example.spec.ts".
Definition exampleFileSource : string :=
  path_join (path_join (path_join __dirname "..") "init") "example.spec.ts".
Definition typesFileSource : string :=
  path_join (path_join (path_join (path_join __dirname "..") "assembly") "__tests__")
    "as-pect.d.ts".
Definition typesFile : string := path_join testFolder "as-pect.d.ts".
Definition configFile : string := path_join process_cwd "as-pect.config.js".
Definition configFileSource : string :=
  path_join (path_join (path_join __dirname "..") "init") "as-pect.config.js".

(** The init script (lines 45-89). *)
Definition init (w : Scaffold) : Scaffold :=
  let w := say "" w in
  let w := say (chalk "[Log] Initializing test suite files.") w in
  let w := say "" w in
  let w :=
    if fs_existsSync assemblyFolder w then w
    else fs_mkdirSync assemblyFolder
           (say (chalk "[Log] Creating folder: ./assembly/") w) in
  let w :=
    if fs_existsSync testFolder w then w
    else
      let w := fs_mkdirSync testFolder
                 (say (chalk "[Log] Creating folder: ./assembly/__tests__/") w) in
      if fs_existsSync exampleFile w then w
      else pipe exampleFileSource exampleFile
             (say (chalk "[Log] Creating file: ./assembly/__tests__/example.spec.ts") w) in
  let w :=
    if fs_existsSync typesFile w then w
    else pipe typesFileSource typesFile
           (say (chalk "[Log] Creating file: assembly/__tests__/as-pect.d.ts") w) in
  if fs_existsSync configFile w then w
  else pipe configFileSource configFile
         (say (chalk "[Log] Creating file: as-pect.config.js") w).

End Branches.

(** ** The Expectation contract (assembly typings, lines 188-407) *)

Module Assembly.

(** Modelled from the spec: the class [Expectation] is only declared in the
    typings under [src/]; its implementation (the assembly sources) is
    missing. An Expectation wraps one actual value and carries a one-level
    negation flag; a matcher call computes the verdict of the matcher and
    the flag inverts the verdict already computed. *)
Record Expectation (T : Type) := {
  actual : T;
  _not : bool;
}.

Arguments actual {T} e.
Arguments _not {T} e.

(** Modelled from the spec: [expect(value)] wraps the value, not negated. *)
Definition expect {T} (value : T) : Expectation T :=
  {| actual := value; _not := false |}.

(** Modelled from the spec: [.not] is bound to the same value and its
    matcher calls report the negation of the normal verdict. *)
Definition not {T} (e : Expectation T) : Expectation T :=
  {| actual := actual e; _not := true |}.

(** Modelled from the spec: a matcher evaluates in the guest, whose state
    [G] it may change (toThrow invokes the wrapped callback), and yields its
    normal verdict. *)
Definition Matcher (G T : Type) : Type := T → G → bool * G.

(** Modelled from the spec: a matcher call evaluates the matcher on the
    wrapped value, then flips the verdict when the flag is set. *)
Definition report {G T} (e : Expectation T) (m : Matcher G T) : G → bool * G :=
  λ g, let '(verdict, g') := m (actual e) g in (xorb (_not e) verdict, g').

(** A matcher that counts its evaluations beside the guest state. *)
Definition counted {G T} (m : Matcher G T) : Matcher (G * nat) T :=
  λ value '(g, n), let '(verdict, g') := m value g in (verdict, (g', S n)).

(** Modelled from the spec: the number that a finite binary64 value
    stands for, in lowest terms; an infinity and NaN stand for none. *)
Definition value (x : float) : option Q :=
  match Prim2SF x with
  | S754_zero _ => Some 0%Q
  | S754_finite s m e =>
      Some (Qred (inject_Z (if s then Z.neg m else Z.pos m) * 2 ^ e))%Q
  | _ => None
  end.

(** Modelled from the spec: the bound 0.5 * 10^-places as a fraction, one
    over twice the power of ten for places that are not negative, and half
    of the power of ten for negative places. *)
Definition epsilon (places : Z) : Q :=
  if (0 <=? places)%Z then 1 # Z.to_pos (2 * 10 ^ places)
  else (10 ^ (- places)) # 2.

(** Modelled from the spec: the implementation of [toBeCloseTo] is missing;
    the typings declare it for two finite numbers and a number of decimal
    places that defaults to 2. Its verdict is that the distance between the
    actual and the expected number is under the bound, and not equal to
    it; the distance is that of the numbers the two values stand for. *)
Definition toBeCloseTo (expected : float) (decimalPlaces : option Z)
    (actual : float) : bool :=
  let places := Js.or_default decimalPlaces 2%Z in
  match value actual, value expected with
  | Some a, Some e => negb (Qle_bool (epsilon places) (Qabs (a - e)))
  | _, _ => false
  end.

(** A verdict computed without effect, as a matcher. *)
Definition pure {G T} (verdict : T → bool) : Matcher G T :=
  λ value g, (verdict value, g).

End Assembly.

(** ** A host to run the program on *)

Module Demo.

Definition split_last (c : Ascii.ascii) (s : string) : option (string * string) :=
  (fix go (s : string) : option (string * string) :=
     match s with
     | EmptyString => None
     | String a rest =>
         match go rest with
         | Some (before, after) => Some (String a before, after)
         | None => if Ascii.eqb a c then Some (EmptyString, rest) else None
         end
     end) s.

Fixpoint contains (needle s : string) : bool :=
  String.prefix needle s ||
  match s with
  | EmptyString => false
  | String _ rest => contains needle rest
  end.

Definition base (p : string) : string :=
  match split_last "/"%char p with
  | Some (_, b) => b
  | None => p
  end.

Definition dirname (p : string) : string :=
  match split_last "/"%char p with
  | Some (d, _) => d
  | None => "."
  end.

Definition extname (p : string) : string :=
  match split_last "."%char (base p) with
  | Some (EmptyString, _) => ""
  | Some (_, e) => "." +:+ e
  | None => ""
  end.

Definition basename (p ext : string) : string :=
  let b := base p in
  let n := (String.length b - String.length ext)%nat in
  if String.eqb (String.substring n (String.length ext) b) ext
     && negb (String.eqb b ext)
  then String.substring 0 n b else b.

Definition join (a b : string) : string :=
  if String.eqb a "." then b else a +:+ "/" +:+ b.

(** The test files of the examples. *)
Definition glob (pattern : string) : list string :=
  if String.eqb pattern "assembly/__tests__/**/*.spec.ts" then
    ["assembly/__tests__/a.spec.ts"; "assembly/__tests__/b.spec.ts"]
  else if String.eqb pattern "assembly/__tests__/a.*" then
    ["assembly/__tests__/a.include.ts"; "assembly/__tests__/a.spec.ts"]
  else if String.eqb pattern "assembly/__tests__/**/*.include.ts" then
    ["assembly/__tests__/a.include.ts"]
  else [].

(** Paths are relative, without [.] and [..] segments; a regular
    expression is a literal text to find; a binary passes when its first
    byte is 1. *)
#[local] Instance host : Host := {|
  RegExp := string;
  regexp_test := contains;
  TestReporter := unit;
  DefaultTestReporter := tt;
  Imports := unit;
  no_imports := tt;
  runner_pass := λ _ binary _,
    match binary with
    | Byte.x01 :: _ => true
    | _ => false
    end;
  glob_sync := glob;
  chalk := λ text, text;
  banner := "AS-pect Test suite runner [2.0.0]";
  path_extname := extname;
  path_dirname := dirname;
  path_basename := basename;
  path_join := join;
  path_resolve := join;
  path_relative := λ _ to, to;
  process_cwd := "/work";
  __dirname := "node_modules/as-pect/lib";
|}.

Definition passing : bytes := [Byte.x01].
Definition failing : bytes := [Byte.x00].

Definition a_spec : string := "assembly/__tests__/a.spec.ts".
Definition b_spec : string := "assembly/__tests__/b.spec.ts".

(** Two units, the second completing first; the first one fails. *)
Definition out_of_order : list event :=
  [ Compile 0; Compile 1;
    WriteFile 1 "output.wasm" passing; Completed 1 None;
    WriteFile 0 "output.wasm" failing; Completed 0 None ].

(** Two units, the second completing first; both pass. *)
Definition both_pass : list event :=
  [ WriteFile 1 "output.wasm" passing; Completed 1 None;
    WriteFile 0 "output.wasm" passing; Completed 0 None ].


(** A flag mapping without the binary-output flag. *)
Definition text_only : IConfiguration.t :=
  {| IConfiguration.include := None;
     IConfiguration.add := None;
     IConfiguration.flags := Some [("--validate", []); ("--textFile", ["output.wat"])];
     IConfiguration.disclude := None;
     IConfiguration.reporter := None;
     IConfiguration.imports := None |}.

(** A working directory with the test folder and without the example. *)
Definition without_example : gset string :=
  {[ "/work/assembly"; "/work/assembly/__tests__" ]}.

(** Include patterns alone. *)
Definition including (patterns : list string) : IConfiguration.t :=
  {| IConfiguration.include := Some patterns;
     IConfiguration.add := None;
     IConfiguration.flags := None;
     IConfiguration.disclude := None;
     IConfiguration.reporter := None;
     IConfiguration.imports := None |}.


End Demo.

(** * The vocabulary of the specification *)

Section Vocabulary.
Context `{Host}.

(** A path matches some exclude regular expression. *)
Definition excluded (configuration : IConfiguration.t) (file : string) : bool :=
  existsb (λ regexp, regexp_test regexp file) (disclude configuration).

(** The flag mapping flattened: each flag token, then its arguments. *)
Definition flattened (flags : ICompilerFlags) : list string :=
  concat (map (λ '(flag, options), flag :: options) flags).

(** The input of the compiler for one spec file: the file, the files of
    the add patterns, the runtime-support entry, the flattened flags. *)
Definition compiler_input (configuration : IConfiguration.t) (file : string) : list string :=
  [file] ++ concat (map glob_sync (add configuration)) ++ [relativeEntryPath]
  ++ flattened (flags configuration).

(** The options of a run whose configuration module evaluates to
    [exports], and the state in which its loop starts. *)
Definition configured (exports : Module_exports) : IConfiguration.t :=
  options_of (Js.or exports (Js.Object empty_configuration)).

Definition started (c config : option string) (exports : Module_exports) : State :=
  final_state (asp c config (inr exports) [] initial).

(** The units that complete in a trace, in the order of completion. *)
Definition completions (trace : list event) : list nat :=
  flat_map (λ e, match e with Completed i _ => [i] | _ => [] end) trace.

(** Every completion of the trace is the completion of a unit. *)
Definition of_units (configuration : IConfiguration.t) (trace : list event) : Prop :=
  Forall (λ i, is_Some (testEntryFiles configuration !! i)) (completions trace).

(** The components a completion leaves alone. *)
Definition same_artifacts (s s' : State) : Prop :=
  written s' = written s ∧ compiled s' = compiled s
  ∧ binaries s' = binaries s ∧ sourcemaps s' = sourcemaps s.

(** The verdict of the test context on a binary. *)
Definition passes (configuration : IConfiguration.t) (binary : bytes) : bool :=
  runner_pass (Js.or_default (IConfiguration.imports configuration) no_imports)
    binary (reporter configuration).

(** Unit [i] reports [pass] in the run of [trace] from [s0]: the run
    reaches its completion, without error and with a binary captured, and
    the test context ends with that verdict. *)
Definition reports (configuration : IConfiguration.t) (s0 : State)
    (trace : list event) (i : nat) (pass : bool) : Prop :=
  ∃ before after s binary,
    trace = before ++ Completed i None :: after ∧
    run configuration before s0 = Returned tt s ∧
    is_Some (testEntryFiles configuration !! i) ∧
    binaries s !! i = Some binary ∧
    passes configuration binary = pass.

(** Every unit whose completion the run reaches has compiled, has a
    binary and passes. *)
Definition all_pass (configuration : IConfiguration.t) (s0 : State)
    (trace : list event) : Prop :=
  ∀ before i error after s,
    trace = before ++ Completed i error :: after →
    run configuration before s0 = Returned tt s →
    is_Some (testEntryFiles configuration !! i) →
    error = None ∧ ∃ binary, binaries s !! i = Some binary ∧ passes configuration binary = true.

(** The compiler hands no binary-kind artifact of unit [i] to the sink. *)
Definition emits_no_binary (i : nat) (trace : list event) : Prop :=
  ∀ name contents, WriteFile i name contents ∈ trace → path_extname name ≠ ".wasm".

(** All of the state but the source maps. *)
Definition observable (s : State) :=
  (console s, written s, compiled s, instantiated s, binaries s, failed s, count s).

(** The state with its source maps dropped. *)
Definition forget (s : State) : State :=
  {| console := console s; written := written s; compiled := compiled s;
     instantiated := instantiated s; binaries := binaries s;
     sourcemaps := ∅; failed := failed s; count := count s |}.

Definition forget_outcome {A} (o : outcome A) : outcome A :=
  match o with
  | Returned a s => Returned a (forget s)
  | Exited code s => Exited code (forget s)
  end.

(** The sibling of a spec file that an artifact of another kind goes to. *)
Definition sibling (file name : string) : string :=
  path_join (path_dirname file)
            (path_basename file (path_extname file) +:+ path_extname name).

(** The files the sink writes for a trace: the artifacts that are neither
    binaries nor source maps, each beside the spec file of its unit. *)
Definition side_files (configuration : IConfiguration.t) (trace : list event)
    : list (string * bytes) :=
  flat_map
    (λ e, match e with
          | WriteFile i name contents =>
              match testEntryFiles configuration !! i with
              | Some file =>
                  if String.eqb (path_extname name) ".wasm" then []
                  else if String.eqb (path_extname name) ".map" then []
                  else [(sibling file name, contents)]
              | None => []
              end
          | _ => []
          end)
    trace.

End Vocabulary.

Section Units.
Context `{Host}.

(** The binary-kind artifacts that the compiler of unit [i] hands to the
    sink in a trace, in the order of the trace. *)
Definition own_binaries (configuration : IConfiguration.t) (i : nat)
    (trace : list event) : list bytes :=
  flat_map
    (λ e, match e with
          | WriteFile j name contents =>
              if bool_decide (j = i)
                 && bool_decide (is_Some (testEntryFiles configuration !! j))
                 && String.eqb (path_extname name) ".wasm"
              then [contents] else []
          | _ => []
          end)
    trace.

(** Every completion that the run reaches is the completion of a unit
    without error and with a binary captured. *)
Definition none_fatal (configuration : IConfiguration.t) (s0 : State)
    (trace : list event) : Prop :=
  ∀ before i error after s,
    trace = before ++ Completed i error :: after →
    run configuration before s0 = Returned tt s →
    error = None ∧ is_Some (binaries s !! i).

(** The inputs of the compiler for the units that a trace starts. *)
Definition started_inputs (configuration : IConfiguration.t) (trace : list event)
    : list (list string) :=
  flat_map
    (λ e, match e with
          | Compile i =>
              match testEntryFiles configuration !! i with
              | Some file => [compiler_input configuration file]
              | None => []
              end
          | _ => []
          end)
    trace.

(** [if (!fs.existsSync(path)) { ... }] *)
Definition guarded (path : string) (action : Scaffold → Scaffold)
    (w : Scaffold) : Scaffold :=
  if fs_existsSync path w then w else action w.

(** A step of the init script that takes no path away. *)
Definition grows (step : Scaffold → Scaffold) : Prop :=
  ∀ w, existing w ⊆ existing (step w) ∧ settled w ⊆ settled (step w).

(** A state of the init script that has only added what was missing in
    [files]. *)
Definition careful (files : gset string) (w : Scaffold) : Prop :=
  existing w = files ∪ list_to_set (made w)
  ∧ (∀ path, path ∈ made w → path ∉ files)
  ∧ (∀ source target, (source, target) ∈ piped w → target ∉ files).

End Units.


(** * Properties *)

(** ** Deduplication *)

Lemma uniq_snoc (l : list string) (x : string) :
  uniq (l ++ [x]) = if bool_decide (x ∈ uniq l) then uniq l else uniq l ++ [x].
Proof. unfold uniq. rewrite fold_left_app. reflexivity. Qed.

Lemma elem_of_uniq (l : list string) (x : string) : x ∈ uniq l ↔ x ∈ l.
Proof.
  induction l as [|y l IH] using rev_ind.
  - reflexivity.
  - rewrite uniq_snoc. case_bool_decide as Hy.
    + rewrite elem_of_app, list_elem_of_singleton, IH.
      split; [tauto|]. intros [?| ->]; [assumption|]. apply IH, Hy.
    + rewrite !elem_of_app, IH. reflexivity.
Qed.





(** ** Folds of the loops *)

Lemma fold_left_push {A B} (f : A → list B) (l : list A) (init : list B) :
  fold_left (λ acc a, acc ++ f a) l init = init ++ concat (map f l).
Proof.
  revert init. induction l as [|a l IH]; intros init; simpl.
  - rewrite app_nil_r. reflexivity.
  - rewrite IH, app_assoc. reflexivity.
Qed.

Lemma fold_left_filter {A R} (test : R → A → bool) (rs : list R) (l : list A) :
  fold_left (λ acc r, List.filter (λ a, negb (test r a)) acc) rs l
  = List.filter (λ a, negb (existsb (λ r, test r a) rs)) l.
Proof.
  revert l. induction rs as [|r rs IH]; intros l; simpl.
  - induction l as [|a l IHl]; simpl; congruence.
  - rewrite IH. induction l as [|a l IHl]; simpl; [reflexivity|].
    destruct (test r a); simpl; [assumption|].
    destruct (existsb _ rs); simpl; congruence.
Qed.

Section Properties.
Context `{Host}.
Implicit Types (configuration : IConfiguration.t) (s : State) (trace : list event).

(** ** Configuration *)

Lemma or_object_truthy (exports : Module_exports) (o : IConfiguration.t) :
  Js.ToBoolean (Js.or exports (Js.Object o)) = true.
Proof.
  unfold Js.or. destruct (Js.ToBoolean exports) eqn:E; [exact E|reflexivity].
Qed.

(** C9. The branch that reports a configuration that is null or not an
    object is never taken. When [require] evaluates to the exports of the
    module, the configuration is these or the empty object, a truthy value,
    and nothing is logged; when it throws, the catch exits with status 1
    before the check. So the check returns on every configuration it is
    given, and loading with the check is loading without it. *)
Theorem configuration_check_unreachable (configurationPath : string) (s : State) :
  (∀ exports,
     require_configuration configurationPath (inr exports) s
     = Returned (Js.or exports (Js.Object empty_configuration)) s
     ∧ Js.ToBoolean (Js.or exports (Js.Object empty_configuration)) = true)
  ∧ (∀ ex, ∃ s',
       require_configuration configurationPath (inl ex) s = Exited 1 s'
       ∧ last (console s') = Some (Stdout (Value ex)))
  ∧ (∀ required (loaded : Module_exports) s',
       require_configuration configurationPath required s = Returned loaded s' →
       check_configuration configurationPath loaded s' = Returned tt s')
  ∧ (∀ required,
       load_configuration configurationPath required s
       = require_configuration configurationPath required s).
Proof.
  assert (Hcheck : ∀ required (loaded : Module_exports) s',
    require_configuration configurationPath required s = Returned loaded s' →
    check_configuration configurationPath loaded s' = Returned tt s').
  { intros [ex|exports] loaded s' Hr; [discriminate Hr|].
    injection Hr as <- <-. unfold check_configuration.
    rewrite or_object_truthy. reflexivity. }
  split; [|split; [|split]].
  - intros exports. split; [reflexivity|apply or_object_truthy].
  - intros ex. eexists. split; [reflexivity|].
    simpl. rewrite last_snoc. reflexivity.
  - exact Hcheck.
  - intros required. unfold load_configuration, bind.
    destruct (require_configuration configurationPath required s)
      as [loaded s'|code s'] eqn:Hr; [|reflexivity].
    rewrite (Hcheck _ _ _ Hr). reflexivity.
Qed.

(** ** File resolution *)

Lemma glob_each_concat (patterns : list string) :
  glob_each patterns = concat (map glob_sync patterns).
Proof. unfold glob_each. rewrite fold_left_push. reflexivity. Qed.

Lemma testEntryFiles_filter configuration :
  testEntryFiles configuration
  = List.filter (λ file, negb (excluded configuration file))
      (uniq (concat (map glob_sync (include configuration)))).
Proof.
  unfold testEntryFiles, excluded.
  rewrite fold_left_filter, glob_each_concat. reflexivity.
Qed.

(** ** Compiler flags *)

Lemma flagList_flattened configuration :
  flagList configuration = flattened (flags configuration).
Proof.
  unfold flagList. change (flattened (flags configuration)) with ([] ++ flattened (flags configuration)).
  generalize (@nil string) as args.
  induction (flags configuration) as [|[flag options] entries IH]; intros args; simpl.
  - rewrite app_nil_r. reflexivity.
  - rewrite IH. unfold flattened. simpl.
    rewrite <- !app_assoc. reflexivity.
Qed.

(** ** The steps of a unit *)

Lemma callback_cases configuration file i error s :
  ∃ s', same_artifacts s s' ∧ count s' = (count s - 1)%Z ∧
    match error, binaries s !! i with
    | Some e, _ =>
        callback configuration file i error s = Exited 1 s'
        ∧ console s' = console s ++ [Stdout (Text (compilation_error file)); Stderr (Value e)]
        ∧ failed s' = failed s ∧ instantiated s' = instantiated s
    | None, None =>
        callback configuration file i error s = Exited 1 s'
        ∧ console s' = console s ++ [Stdout (Text (no_binary file))]
        ∧ failed s' = failed s ∧ instantiated s' = instantiated s
    | None, Some binary =>
        callback configuration file i error s
        = (if (count s' =? 0)%Z && failed s' then Exited 1 s' else Returned 0%Z s')
        ∧ console s' = console s
        ∧ failed s' = failed s || negb (passes configuration binary)
        ∧ instantiated s' = instantiated s ++ [binary]
    end.
Proof.
  destruct error as [e|].
  - eexists. split; [|split; [|split; [reflexivity|]]].
    + repeat split.
    + reflexivity.
    + simpl. rewrite <- app_assoc. repeat split.
  - destruct (binaries s !! i) as [binary|] eqn:Hb.
    + exists {| console := console s; written := written s; compiled := compiled s;
                instantiated := instantiated s ++ [binary]; binaries := binaries s;
                sourcemaps := sourcemaps s;
                failed := failed s || negb (passes configuration binary);
                count := count s - 1 |}.
      split; [repeat split|]. split; [reflexivity|].
      split; [|repeat split].
      unfold callback, bind, get. simpl. rewrite Hb. simpl.
      unfold passes.
      destruct ((count s - 1 =? 0)%Z && _); reflexivity.
    + exists {| console := console s ++ [Stdout (Text (no_binary file))];
                written := written s; compiled := compiled s;
                instantiated := instantiated s; binaries := binaries s;
                sourcemaps := sourcemaps s; failed := failed s;
                count := count s - 1 |}.
      split; [repeat split|]. split; [reflexivity|].
      split; [|repeat split].
      unfold callback, bind, get. simpl. rewrite Hb. reflexivity.
Qed.

Lemma writeFile_cases file i name contents s :
  ∃ s', writeFile file i name contents s = Returned tt s'
    ∧ console s' = console s ∧ compiled s' = compiled s
    ∧ instantiated s' = instantiated s
    ∧ failed s' = failed s ∧ count s' = count s
    ∧ if String.eqb (path_extname name) ".wasm" then
        binaries s' = <[i := contents]> (binaries s)
        ∧ sourcemaps s' = sourcemaps s ∧ written s' = written s
      else if String.eqb (path_extname name) ".map" then
        binaries s' = binaries s
        ∧ sourcemaps s' = <[name := contents]> (sourcemaps s)
        ∧ written s' = written s
      else
        binaries s' = binaries s ∧ sourcemaps s' = sourcemaps s
        ∧ written s' = written s ++ [(sibling file name, contents)].
Proof.
  unfold writeFile.
  destruct (String.eqb (path_extname name) ".wasm");
    [|destruct (String.eqb (path_extname name) ".map")];
    eexists; repeat split.
Qed.

Lemma compile_cases configuration file i s :
  ∃ s', compile configuration file i s = Returned tt s'
    ∧ compiled s' = compiled s ++ [compiler_input configuration file]
    ∧ written s' = written s ∧ instantiated s' = instantiated s
    ∧ binaries s' = binaries s ∧ sourcemaps s' = sourcemaps s
    ∧ failed s' = failed s ∧ count s' = count s.
Proof.
  eexists. split; [reflexivity|]. simpl.
  unfold compiler_input, addedTestEntryFiles.
  rewrite flagList_flattened, glob_each_concat, <- app_assoc.
  repeat split.
Qed.

(** ** Runs *)

Lemma run_cons configuration e trace s :
  run configuration (e :: trace) s
  = match handle configuration e s with
    | Returned _ s' => run configuration trace s'
    | Exited code s' => Exited code s'
    end.
Proof. reflexivity. Qed.

Lemma run_cons_step configuration e trace s s1 :
  handle configuration e s = Returned tt s1 →
  run configuration (e :: trace) s = run configuration trace s1.
Proof. intros He. rewrite run_cons, He. reflexivity. Qed.

Lemma run_app configuration before after s :
  run configuration (before ++ after) s
  = match run configuration before s with
    | Returned _ s' => run configuration after s'
    | Exited code s' => Exited code s'
    end.
Proof.
  revert s. induction before as [|e before IH]; intros s; [reflexivity|].
  rewrite <- app_comm_cons, !run_cons.
  destruct (handle configuration e s); [apply IH|reflexivity].
Qed.

Lemma run_cons_returned configuration e trace s s' :
  run configuration (e :: trace) s = Returned tt s' →
  ∃ s1, handle configuration e s = Returned tt s1
        ∧ run configuration trace s1 = Returned tt s'.
Proof.
  rewrite run_cons.
  destruct (handle configuration e s) as [[] s1|code s1]; [|discriminate].
  intros Hr. exists s1. split; [reflexivity|assumption].
Qed.

(** An event that is not a completion returns and leaves the counter and
    the flag alone. *)
Lemma handle_other configuration e s :
  (∀ i error, e ≠ Completed i error) →
  ∃ s', handle configuration e s = Returned tt s'
        ∧ failed s' = failed s ∧ count s' = count s.
Proof.
  intros He. destruct e as [i|i name contents|i error]; simpl.
  - destruct (testEntryFiles configuration !! i) as [file|]; [|by exists s].
    destruct (compile_cases configuration file i s) as (s' & -> & Hs).
    exists s'. tauto.
  - destruct (testEntryFiles configuration !! i) as [file|]; [|by exists s].
    destruct (writeFile_cases file i name contents s) as (s' & -> & Hs).
    exists s'. tauto.
  - destruct (He i error). reflexivity.
Qed.

(** A completion that returns found no error and a binary, has counted
    itself and recorded the verdict, and the counter is not at zero with
    the flag set. *)
Lemma handle_completed_returned configuration i error s s1 :
  is_Some (testEntryFiles configuration !! i) →
  handle configuration (Completed i error) s = Returned tt s1 →
  error = None
  ∧ ∃ binary, binaries s !! i = Some binary
      ∧ count s1 = (count s - 1)%Z
      ∧ failed s1 = failed s || negb (passes configuration binary)
      ∧ (count s1 =? 0)%Z && failed s1 = false.
Proof.
  intros [file Hfile]. simpl. rewrite Hfile. unfold bind at 1.
  destruct (callback_cases configuration file i error s) as (s' & _ & Hc & Hcb).
  destruct error as [e|]; [destruct Hcb as [-> _]; discriminate|].
  destruct (binaries s !! i) as [binary|]; [|destruct Hcb as [-> _]; discriminate].
  destruct Hcb as (-> & _ & Hf & _).
  destruct ((count s' =? 0)%Z && failed s') eqn:Hexit; [discriminate|].
  intros [= <-]. split; [reflexivity|]. exists binary. tauto.
Qed.

Lemma handle_exit_code configuration e s code s' :
  handle configuration e s = Exited code s' → code = 1%Z.
Proof.
  destruct e as [i|i name contents|i error].
  - destruct (handle_other configuration (Compile i) s) as (? & -> & _); [|discriminate].
    intros; discriminate.
  - destruct (handle_other configuration (WriteFile i name contents) s) as (? & -> & _);
      [|discriminate].
    intros; discriminate.
  - simpl. destruct (testEntryFiles configuration !! i) as [file|]; [|discriminate].
    unfold bind at 1.
    destruct (callback_cases configuration file i error s) as (s1 & _ & _ & Hcb).
    destruct error as [e|]; [destruct Hcb as [-> _]; congruence|].
    destruct (binaries s !! i) as [binary|]; [|destruct Hcb as [-> _]; congruence].
    destruct Hcb as [-> _].
    destruct ((count s1 =? 0)%Z && failed s1); [congruence|discriminate].
Qed.

(** Every exit of a run is an exit with status 1. *)
Lemma run_exit_code configuration trace s code s' :
  run configuration trace s = Exited code s' → code = 1%Z.
Proof.
  revert s. induction trace as [|e trace IH]; intros s; [discriminate|].
  rewrite run_cons.
  destruct (handle configuration e s) as [[] s1|code1 s1] eqn:He.
  - apply IH.
  - intros [= <- <-]. eapply handle_exit_code, He.
Qed.

Lemma of_units_cons configuration e trace :
  of_units configuration (e :: trace) → of_units configuration trace.
Proof.
  unfold of_units, completions. simpl. rewrite Forall_app. tauto.
Qed.

(** The pending counter goes down by one for each completion. *)
Lemma run_count configuration trace s s' :
  of_units configuration trace →
  run configuration trace s = Returned tt s' →
  count s' = (count s - Z.of_nat (length (completions trace)))%Z.
Proof.
  revert s. induction trace as [|e trace IH]; intros s Hu.
  - intros [= <-]. simpl. lia.
  - intros (s1 & He & Hr)%run_cons_returned.
    rewrite (IH s1 (of_units_cons _ _ _ Hu) Hr).
    destruct e as [i|i name contents|i error].
    + destruct (handle_other configuration (Compile i) s) as (? & He' & _ & Hc);
        [discriminate|].
      rewrite He' in He. injection He as <-. simpl. lia.
    + destruct (handle_other configuration (WriteFile i name contents) s)
        as (? & He' & _ & Hc); [discriminate|].
      rewrite He' in He. injection He as <-. simpl. lia.
    + apply Forall_cons_1 in Hu as [Hi _].
      apply handle_completed_returned in He as (_ & binary & _ & Hc & _); [|exact Hi].
      simpl. lia.
Qed.

(** The failed flag is never reset. *)
Lemma run_failed_mono configuration trace s s' :
  run configuration trace s = Returned tt s' →
  failed s = true → failed s' = true.
Proof.
  revert s. induction trace as [|e trace IH]; intros s.
  - intros [= <-]. tauto.
  - intros (s1 & He & Hr)%run_cons_returned Hf. apply (IH s1 Hr).
    destruct e as [i|i name contents|i error].
    + destruct (handle_other configuration (Compile i) s) as (? & He' & Hf' & _);
        [discriminate|]. congruence.
    + destruct (handle_other configuration (WriteFile i name contents) s)
        as (? & He' & Hf' & _); [discriminate|]. congruence.
    + simpl in He. destruct (testEntryFiles configuration !! i) as [file|] eqn:Hfile.
      * assert (Hi : is_Some (testEntryFiles configuration !! i)) by (rewrite Hfile; eauto).
        assert (He' : handle configuration (Completed i error) s = Returned tt s1)
          by (simpl; rewrite Hfile; exact He).
        apply handle_completed_returned in He' as (_ & binary & _ & _ & -> & _);
          [|exact Hi].
        rewrite Hf. reflexivity.
      * injection He as <-. assumption.
Qed.

(** With no completion in it, a run leaves the counter and the flag
    alone. *)
Lemma run_quiet configuration trace s s' :
  completions trace = [] →
  run configuration trace s = Returned tt s' →
  failed s' = failed s ∧ count s' = count s.
Proof.
  revert s. induction trace as [|e trace IH]; intros s Hc.
  - intros [= <-]. tauto.
  - intros (s1 & He & Hr)%run_cons_returned.
    destruct e as [i|i name contents|i error]; [| |discriminate Hc].
    + destruct (handle_other configuration (Compile i) s) as (? & He' & Hf & Hn);
        [discriminate|].
      rewrite He' in He. injection He as ->.
      destruct (IH s1 Hc Hr) as [-> ->]. tauto.
    + destruct (handle_other configuration (WriteFile i name contents) s)
        as (? & He' & Hf & Hn); [discriminate|].
      rewrite He' in He. injection He as ->.
      destruct (IH s1 Hc Hr) as [-> ->]. tauto.
Qed.

(** A run in which a unit completed does not return with the counter at
    zero and the flag set: the last completion would have exited. *)
Lemma run_returned_not_failing configuration trace s s' :
  of_units configuration trace →
  completions trace ≠ [] →
  run configuration trace s = Returned tt s' →
  (count s' =? 0)%Z && failed s' = false.
Proof.
  revert s. induction trace as [|e trace IH]; intros s Hu Hne; [done|].
  intros (s1 & He & Hr)%run_cons_returned.
  destruct (completions trace) as [|j js] eqn:Hrest.
  - destruct (run_quiet configuration trace s1 s' Hrest Hr) as [-> ->].
    destruct e as [i|i name contents|i error];
      [unfold completions in Hne, Hrest; simpl in Hne; rewrite Hrest in Hne; done
      |unfold completions in Hne, Hrest; simpl in Hne; rewrite Hrest in Hne; done|].
    apply Forall_cons_1 in Hu as [Hi _].
    apply handle_completed_returned in He as (_ & binary & _ & _ & _ & Hexit);
      [assumption|exact Hi].
  - apply (IH s1); [eapply of_units_cons, Hu|congruence|assumption].
Qed.

(** ** The aggregate exit status *)

Lemma asp_started c config exports trace :
  asp c config (inr exports) trace initial
  = run (configured exports) trace (started c config exports).
Proof.
  unfold started, asp, load_configuration, require_configuration,
    check_configuration, bind, ret.
  simpl. rewrite or_object_truthy. reflexivity.
Qed.

Lemma started_state c config exports :
  count (started c config exports)
  = Z.of_nat (length (testEntryFiles (configured exports)))
  ∧ failed (started c config exports) = false
  ∧ binaries (started c config exports) = ∅
  ∧ sourcemaps (started c config exports) = ∅
  ∧ written (started c config exports) = [].
Proof.
  unfold started, asp, load_configuration, require_configuration,
    check_configuration, bind, ret.
  simpl. rewrite or_object_truthy. repeat split.
Qed.

Lemma all_pass_cons configuration e trace s s1 :
  all_pass configuration s (e :: trace) →
  handle configuration e s = Returned tt s1 →
  all_pass configuration s1 trace.
Proof.
  intros Hall He before i error after s' -> Hr Hi.
  apply (Hall (e :: before) i error after s'); [reflexivity| |assumption].
  rewrite run_cons, He. assumption.
Qed.

(** When every completion reached is a pass, the run returns and the
    flag stays clear. *)
Lemma all_pass_returns configuration trace s :
  failed s = false →
  all_pass configuration s trace →
  ∃ s', run configuration trace s = Returned tt s' ∧ failed s' = false.
Proof.
  revert s. induction trace as [|e trace IH]; intros s Hf Hall.
  - exists s. split; [reflexivity|assumption].
  - assert (∃ s1, handle configuration e s = Returned tt s1 ∧ failed s1 = false)
      as (s1 & He & Hf1).
    { destruct e as [i|i name contents|i error].
      - destruct (handle_other configuration (Compile i) s) as (s1 & He & Hf' & _);
          [discriminate|]. exists s1. split; congruence.
      - destruct (handle_other configuration (WriteFile i name contents) s)
          as (s1 & He & Hf' & _); [discriminate|]. exists s1. split; congruence.
      - simpl. destruct (testEntryFiles configuration !! i) as [file|] eqn:Hfile;
          [|exists s; split; [reflexivity|assumption]].
        destruct (Hall [] i error trace s) as (-> & binary & Hb & Hp);
          [reflexivity|reflexivity|rewrite Hfile; eauto|].
        unfold bind at 1.
        destruct (callback_cases configuration file i None s) as (s1 & _ & _ & Hcb).
        rewrite Hb in Hcb. destruct Hcb as (-> & _ & Hf1 & _).
        rewrite Hf, Hp in Hf1. simpl in Hf1.
        rewrite Hf1, andb_false_r. exists s1. split; [reflexivity|assumption]. }
    destruct (IH s1 Hf1 (all_pass_cons _ _ _ _ _ Hall He)) as (s' & Hr & Hf').
    exists s'. split; [|assumption]. rewrite run_cons, He. assumption.
Qed.

(** When all the units complete and one of them reports a failure, the
    run exits with status 1. *)
Lemma reported_failure_exits configuration trace s0 :
  count s0 = Z.of_nat (length (testEntryFiles configuration)) →
  completions trace ≡ₚ seq 0 (length (testEntryFiles configuration)) →
  (∃ i, reports configuration s0 trace i false) →
  exit_status (run configuration trace s0) = 1%Z.
Proof.
  intros Hcount Hperm (i & before & after & s & binary & -> & Hbefore & Hi & Hb & Hp).
  set (trace := before ++ Completed i None :: after) in *.
  assert (Hunits : of_units configuration trace).
  { unfold of_units. rewrite Hperm. apply Forall_forall. intros j Hj.
    apply lookup_lt_is_Some. apply elem_of_seq in Hj. lia. }
  assert (Hlen : length (completions trace) = length (testEntryFiles configuration)).
  { rewrite Hperm. apply length_seq. }
  assert (Hne : completions trace ≠ []).
  { unfold trace, completions. rewrite flat_map_app. simpl.
    intros Hnil. apply app_eq_nil in Hnil as [_ ?]. discriminate. }
  destruct (run configuration trace s0) as [[] s'|code s'] eqn:Hrun.
  - exfalso.
    pose proof (run_returned_not_failing _ _ _ _ Hunits Hne Hrun) as Hnot.
    pose proof (run_count _ _ _ _ Hunits Hrun) as Hc.
    unfold trace in Hrun. rewrite run_app, Hbefore in Hrun.
    apply run_cons_returned in Hrun as (s1 & He & Hafter).
    apply handle_completed_returned in He as (_ & binary' & Hb' & _ & Hf1 & _);
      [|exact Hi].
    assert (binary' = binary) as -> by congruence.
    rewrite Hp, orb_true_r in Hf1.
    rewrite (run_failed_mono _ _ _ _ Hafter Hf1), andb_true_r in Hnot.
    apply Z.eqb_neq in Hnot. lia.
  - simpl. eapply run_exit_code, Hrun.
Qed.

(** C1. The pending counter starts at the number N of resolved spec files
    with the failed flag clear; every completion, fatal or not, takes one
    from it; a unit that ran its tests exits with status 1 exactly when the
    counter has reached zero with the flag set, the flag being the old flag
    or the negation of the verdict. So a run in which all N units complete,
    in any order, and at least one reports pass = false exits with status
    1; a run in which every unit reached compiles, runs and passes ends
    with status 0, also when no unit is resolved; no other status
    occurs. *)
Theorem exit_status_of_the_run c config exports :
  let configuration := configured exports in
  let s0 := started c config exports in
  let N := length (testEntryFiles configuration) in
  (count s0 = Z.of_nat N ∧ failed s0 = false)
  ∧ (∀ file i error s,
       count (final_state (callback configuration file i error s)) = (count s - 1)%Z)
  ∧ (∀ file i s binary,
       binaries s !! i = Some binary →
       ∃ s', count s' = (count s - 1)%Z
             ∧ failed s' = failed s || negb (passes configuration binary)
             ∧ callback configuration file i None s
               = if (count s' =? 0)%Z && failed s' then Exited 1 s' else Returned 0%Z s')
  ∧ (∀ trace,
       completions trace ≡ₚ seq 0 N →
       (∃ i, reports configuration s0 trace i false) →
       exit_status (asp c config (inr exports) trace initial) = 1%Z)
  ∧ (∀ trace,
       all_pass configuration s0 trace →
       exit_status (asp c config (inr exports) trace initial) = 0%Z)
  ∧ (N = 0 → ∀ trace, exit_status (asp c config (inr exports) trace initial) = 0%Z)
  ∧ (∀ trace,
       exit_status (asp c config (inr exports) trace initial) = 0%Z
       ∨ exit_status (asp c config (inr exports) trace initial) = 1%Z).
Proof.
  intros configuration s0 N. subst configuration s0 N.
  destruct (started_state c config exports) as (Hcount & Hfailed & _).
  assert (Hpass : ∀ trace,
    all_pass (configured exports) (started c config exports) trace →
    exit_status (asp c config (inr exports) trace initial) = 0%Z).
  { intros trace Hall. rewrite asp_started.
    destruct (all_pass_returns _ trace _ Hfailed Hall) as (s' & -> & _).
    reflexivity. }
  split; [split; assumption|]. split; [|split; [|split; [|split; [|split]]]].
  - intros file i error s.
    destruct (callback_cases (configured exports) file i error s) as (s' & _ & Hc & Hcb).
    destruct error as [e|]; [destruct Hcb as [-> _]; exact Hc|].
    destruct (binaries s !! i) as [binary|]; destruct Hcb as [-> _]; [|exact Hc].
    destruct ((count s' =? 0)%Z && failed s'); exact Hc.
  - intros file i s binary Hb.
    destruct (callback_cases (configured exports) file i None s) as (s' & _ & Hc & Hcb).
    rewrite Hb in Hcb. exists s'. tauto.
  - intros trace Hperm Hreports. rewrite asp_started.
    apply reported_failure_exits; assumption.
  - exact Hpass.
  - intros HN trace. apply Hpass.
    intros before i error after s _ _ [file Hfile].
    apply lookup_lt_Some in Hfile. lia.
  - intros trace. rewrite asp_started.
    destruct (run (configured exports) trace (started c config exports))
      as [[] s'|code s'] eqn:Hrun; [left; reflexivity|].
    right. simpl. eapply run_exit_code, Hrun.
Qed.

(** ** Fatal completions *)

Lemma diagnostics_differ (file file' : string) :
  compilation_error file ≠ no_binary file'.
Proof.
  unfold compilation_error, no_binary. intros Heq.
  cbv in Heq. congruence.
Qed.

(** C2. A completion with a compile error, and a completion without error
    for which no binary was captured under the index of the file, each log
    a diagnostic and exit at once with status 1, whatever the pending
    counter: the events that follow are not run. The diagnostic of the
    first is never the diagnostic of the second. *)
Theorem fatal_completion configuration file i s :
  testEntryFiles configuration !! i = Some file →
  (∀ e rest, ∃ s',
     run configuration (Completed i (Some e) :: rest) s = Exited 1 s'
     ∧ console s'
       = console s ++ [Stdout (Text (compilation_error file)); Stderr (Value e)]
     ∧ instantiated s' = instantiated s)
  ∧ (binaries s !! i = None →
     ∀ rest, ∃ s',
       run configuration (Completed i None :: rest) s = Exited 1 s'
       ∧ console s' = console s ++ [Stdout (Text (no_binary file))]
       ∧ instantiated s' = instantiated s)
  ∧ (∀ file', compilation_error file ≠ no_binary file').
Proof.
  intros Hfile. split; [|split].
  - intros e rest.
    destruct (callback_cases configuration file i (Some e) s) as (s' & _ & _ & Hcb & Hs).
    exists s'. split; [|tauto].
    rewrite run_cons. simpl. rewrite Hfile. unfold bind at 1. rewrite Hcb. reflexivity.
  - intros Hb rest.
    destruct (callback_cases configuration file i None s) as (s' & _ & _ & Hcb).
    rewrite Hb in Hcb. destruct Hcb as (Hcb & Hs).
    exists s'. split; [|tauto].
    rewrite run_cons. simpl. rewrite Hfile. unfold bind at 1. rewrite Hcb. reflexivity.
  - apply diagnostics_differ.
Qed.

(** ** The input of the compiler *)

Lemma run_compile_all configuration (n k : nat) s :
  ∃ s', run configuration (Compile <$> seq k n) s = Returned tt s'
        ∧ compiled s'
          = compiled s
            ++ map (compiler_input configuration)
                 (take n (drop k (testEntryFiles configuration))).
Proof.
  revert k s. induction n as [|n IH]; intros k s.
  - exists s. split; [reflexivity|]. rewrite take_0, app_nil_r. reflexivity.
  - simpl seq. rewrite fmap_cons.
    destruct (testEntryFiles configuration !! k) as [file|] eqn:Hfile.
    + destruct (compile_cases configuration file k s) as (s1 & He & Hc & _).
      destruct (IH (S k) s1) as (s' & Hr & Hc').
      exists s'. split.
      * rewrite (run_cons_step _ _ _ _ s1); [assumption|].
        simpl. rewrite Hfile. assumption.
      * rewrite Hc', Hc, (drop_S _ _ _ Hfile). simpl.
        rewrite <- app_assoc. reflexivity.
    + destruct (IH (S k) s) as (s' & Hr & Hc').
      exists s'. split.
      * rewrite (run_cons_step _ _ _ _ s); [assumption|].
        simpl. rewrite Hfile. reflexivity.
      * rewrite Hc'. apply lookup_ge_None in Hfile.
        rewrite !drop_ge by lia. rewrite !take_nil. reflexivity.
Qed.

(** C4. The compiler is invoked for a spec file with exactly: the file,
    every file of the add patterns in order, the runtime-support entry,
    and the flag mapping flattened in the order of its entries, each flag
    token followed by its arguments. The loop over the resolved files
    makes these invocations, one per file, in the order of the files. *)
Theorem compiler_invocation configuration :
  flagList configuration
  = concat (map (λ '(flag, options), flag :: options) (flags configuration))
  ∧ (∀ file i s, ∃ s',
       compile configuration file i s = Returned tt s'
       ∧ compiled s'
         = compiled s
           ++ [[file] ++ concat (map glob_sync (add configuration))
               ++ [relativeEntryPath] ++ flagList configuration])
  ∧ (∀ s, ∃ s',
       run configuration
         (Compile <$> seq 0 (length (testEntryFiles configuration))) s
       = Returned tt s'
       ∧ compiled s'
         = compiled s
           ++ map (compiler_input configuration) (testEntryFiles configuration)).
Proof.
  split; [apply flagList_flattened|]. split.
  - intros file i s.
    destruct (compile_cases configuration file i s) as (s' & Hc & Hs & _).
    exists s'. split; [assumption|].
    rewrite Hs, flagList_flattened. reflexivity.
  - intros s.
    destruct (run_compile_all configuration
                (length (testEntryFiles configuration)) 0 s) as (s' & Hr & Hc).
    exists s'. split; [assumption|].
    rewrite Hc, drop_0, firstn_all. reflexivity.
Qed.

(** ** The write sink *)

Lemma handle_written configuration e s :
  written (final_state (handle configuration e s))
  = written s ++ side_files configuration [e].
Proof.
  destruct e as [i|i name contents|i error]; simpl.
  - rewrite app_nil_r.
    destruct (testEntryFiles configuration !! i) as [file|]; [|reflexivity].
    destruct (compile_cases configuration file i s) as (s' & -> & _ & Hw & _).
    exact Hw.
  - destruct (testEntryFiles configuration !! i) as [file|];
      [|rewrite app_nil_r; reflexivity].
    destruct (writeFile_cases file i name contents s) as (s' & -> & _ & _ & _ & _ & _ & Hk).
    simpl.
    destruct (String.eqb (path_extname name) ".wasm");
      [|destruct (String.eqb (path_extname name) ".map")]; simpl;
      rewrite ?app_nil_r; tauto.
  - rewrite app_nil_r.
    destruct (testEntryFiles configuration !! i) as [file|]; [|reflexivity].
    unfold bind at 1.
    destruct (callback_cases configuration file i error s) as (s' & (Hw & _) & _ & Hcb).
    destruct error as [e|]; [destruct Hcb as [-> _]; exact Hw|].
    destruct (binaries s !! i) as [binary|]; destruct Hcb as [-> _]; [|exact Hw].
    destruct ((count s' =? 0)%Z && failed s'); exact Hw.
Qed.

(** What a run writes to disk: the side files of the events it ran. *)
Lemma run_written configuration trace s :
  ∃ k, written (final_state (run configuration trace s))
       = written s ++ side_files configuration (take k trace).
Proof.
  revert s. induction trace as [|e trace IH]; intros s.
  - exists 0. simpl. rewrite app_nil_r. reflexivity.
  - rewrite run_cons. pose proof (handle_written configuration e s) as He.
    destruct (handle configuration e s) as [[] s1|code s1]; simpl in He.
    + destruct (IH s1) as (k & Hk). exists (S k).
      rewrite Hk, He. unfold side_files. simpl. rewrite app_nil_r, <- app_assoc.
      reflexivity.
    + exists 1. exact He.
Qed.

Lemma side_files_origin configuration trace path contents :
  (path, contents) ∈ side_files configuration trace →
  ∃ i file name,
    WriteFile i name contents ∈ trace
    ∧ testEntryFiles configuration !! i = Some file
    ∧ path_extname name ≠ ".wasm" ∧ path_extname name ≠ ".map"
    ∧ path = sibling file name.
Proof.
  unfold side_files. rewrite list_elem_of_In, in_flat_map.
  intros (e & He & Hin). destruct e as [i|i name contents'|i error]; [done| |done].
  destruct (testEntryFiles configuration !! i) as [file|] eqn:Hfile; [|done].
  destruct (String.eqb (path_extname name) ".wasm") eqn:Hwasm; [done|].
  destruct (String.eqb (path_extname name) ".map") eqn:Hmap; [done|].
  destruct Hin as [[= <- <-]|[]].
  exists i, file, name. rewrite list_elem_of_In.
  apply String.eqb_neq in Hwasm, Hmap. tauto.
Qed.

(** C5. An artifact handed to the sink of the unit of index i: with the
    extension of a binary module it is kept in memory under i and nothing
    is written; with the extension of a source map it is kept in memory
    under its name and nothing is written; with any other extension it is
    written at once beside the spec file, in its directory, under its base
    name with the extension of the artifact. In a whole run the only files
    written are these: no binary and no source map reaches the disk. *)
Theorem write_sink configuration file i name contents s :
  (path_extname name = ".wasm" →
   ∃ s', writeFile file i name contents s = Returned tt s'
         ∧ binaries s' = <[i := contents]> (binaries s)
         ∧ sourcemaps s' = sourcemaps s ∧ written s' = written s)
  ∧ (path_extname name = ".map" →
     ∃ s', writeFile file i name contents s = Returned tt s'
           ∧ sourcemaps s' = <[name := contents]> (sourcemaps s)
           ∧ binaries s' = binaries s ∧ written s' = written s)
  ∧ (path_extname name ≠ ".wasm" → path_extname name ≠ ".map" →
     ∃ s', writeFile file i name contents s = Returned tt s'
           ∧ written s'
             = written s
               ++ [(path_join (path_dirname file)
                      (path_basename file (path_extname file) +:+ path_extname name),
                    contents)]
           ∧ binaries s' = binaries s ∧ sourcemaps s' = sourcemaps s)
  ∧ (∀ trace path contents',
       (path, contents') ∈ written (final_state (run configuration trace s)) →
       (path, contents') ∈ written s
       ∨ ∃ j file' name',
           WriteFile j name' contents' ∈ trace
           ∧ testEntryFiles configuration !! j = Some file'
           ∧ path_extname name' ≠ ".wasm" ∧ path_extname name' ≠ ".map"
           ∧ path = sibling file' name').
Proof.
  destruct (writeFile_cases file i name contents s)
    as (s' & Hw & _ & _ & _ & _ & _ & Hk).
  split; [|split; [|split]].
  - intros Hext. rewrite Hext in Hk. simpl in Hk. exists s'. tauto.
  - intros Hext. rewrite Hext in Hk. simpl in Hk. exists s'. tauto.
  - intros Hwasm%String.eqb_neq Hmap%String.eqb_neq.
    rewrite Hwasm, Hmap in Hk. exists s'. unfold sibling in Hk. tauto.
  - intros trace path contents'.
    destruct (run_written configuration trace s) as (k & ->).
    rewrite elem_of_app. intros [Hold|Hnew]; [left; assumption|right].
    apply side_files_origin in Hnew as (j & file' & name' & Hin & Hrest).
    exists j, file', name'. split; [|exact Hrest].
    eapply subseteq_take, Hin.
Qed.

(** ** The mandatory flag *)

Lemma handle_completed_same configuration i error s :
  same_artifacts s (final_state (handle configuration (Completed i error) s)).
Proof.
  simpl. destruct (testEntryFiles configuration !! i) as [file|]; [|repeat split].
  unfold bind at 1.
  destruct (callback_cases configuration file i error s) as (s' & Hsame & _ & Hcb).
  destruct error as [e|]; [destruct Hcb as [-> _]; exact Hsame|].
  destruct (binaries s !! i) as [binary|]; destruct Hcb as [-> _]; [|exact Hsame].
  destruct ((count s' =? 0)%Z && failed s'); exact Hsame.
Qed.

Lemma handle_no_binary configuration e i s s1 :
  (∀ name contents, e = WriteFile i name contents → path_extname name ≠ ".wasm") →
  binaries s !! i = None →
  handle configuration e s = Returned tt s1 →
  binaries s1 !! i = None.
Proof.
  intros He Hb Hs1. destruct e as [j|j name contents|j error].
  - simpl in Hs1. destruct (testEntryFiles configuration !! j) as [file|];
      [|injection Hs1 as <-; assumption].
    destruct (compile_cases configuration file j s) as (s' & Hc & _ & _ & _ & Hbin & _).
    rewrite Hc in Hs1. injection Hs1 as <-. rewrite Hbin. assumption.
  - simpl in Hs1. destruct (testEntryFiles configuration !! j) as [file|];
      [|injection Hs1 as <-; assumption].
    destruct (writeFile_cases file j name contents s)
      as (s' & Hw & _ & _ & _ & _ & _ & Hk).
    rewrite Hw in Hs1. injection Hs1 as <-.
    destruct (String.eqb (path_extname name) ".wasm") eqn:Hwasm.
    + destruct Hk as (-> & _). apply String.eqb_eq in Hwasm.
      destruct (decide (j = i)) as [->|Hji].
      * destruct (He name contents eq_refl Hwasm).
      * rewrite lookup_insert_ne; assumption.
    + destruct (String.eqb (path_extname name) ".map");
        destruct Hk as (-> & _); assumption.
  - pose proof (handle_completed_same configuration j error s) as (_ & _ & Hbin & _).
    rewrite Hs1 in Hbin. simpl in Hbin. rewrite Hbin. assumption.
Qed.

(** A unit whose compiler emits no binary has none captured. *)
Lemma run_no_binary configuration trace i s s' :
  emits_no_binary i trace →
  binaries s !! i = None →
  run configuration trace s = Returned tt s' →
  binaries s' !! i = None.
Proof.
  revert s. induction trace as [|e trace IH]; intros s Hemits Hb.
  - intros [= <-]. assumption.
  - intros (s1 & He & Hr)%run_cons_returned.
    apply (IH s1); [| |assumption].
    + intros name contents Hin. apply (Hemits name contents). by right.
    + apply (handle_no_binary configuration e i s s1); [|assumption..].
      intros name contents ->. apply (Hemits name contents). by left.
Qed.

Lemma elem_of_flattened (token : string) (entries : ICompilerFlags) :
  token ∈ flattened entries ↔
  ∃ flag options, (flag, options) ∈ entries ∧ (token = flag ∨ token ∈ options).
Proof.
  unfold flattened. rewrite list_elem_of_In, in_concat. split.
  - intros (l & Hl & Ht). apply in_map_iff in Hl as ([flag options] & <- & Hin).
    exists flag, options. rewrite !list_elem_of_In. destruct Ht as [<-|Ht]; tauto.
  - intros (flag & options & Hin & Ht). exists (flag :: options). split.
    + apply in_map_iff. exists (flag, options). rewrite <- list_elem_of_In. tauto.
    + rewrite list_elem_of_In in Ht. destruct Ht as [->|Ht]; [by left|by right].
Qed.

(** C6. Without a flag mapping in the configuration the flags are the
    default ones, which hold the binary-output flag with its file name.
    A flag mapping of the configuration replaces them whole: the tokens
    given to the compiler are those of the mapping and nothing else, so the
    binary-output flag is among them only when the mapping has it. When
    the compiler then emits no binary for a unit that completes without
    error, the run exits with status 1 on the missing-binary diagnostic. *)
Theorem mandatory_binary_flag configuration :
  (IConfiguration.flags configuration = None →
     flags configuration = default_flags
     ∧ ("--binaryFile", ["output.wasm"]) ∈ flags configuration
     ∧ flagList configuration
       = ["--validate"; "--debug"; "--measure"; "--sourceMap";
          "--binaryFile"; "output.wasm"])
  ∧ (∀ custom,
       IConfiguration.flags configuration = Some custom →
       flags configuration = custom
       ∧ flagList configuration = flattened custom
       ∧ ("--binaryFile" ∈ flagList configuration ↔
          ∃ flag options, (flag, options) ∈ custom
            ∧ ("--binaryFile" = flag ∨ "--binaryFile" ∈ options)))
  ∧ (∀ i file before rest s0 s,
       testEntryFiles configuration !! i = Some file →
       binaries s0 !! i = None →
       emits_no_binary i before →
       run configuration before s0 = Returned tt s →
       ∃ s', run configuration (before ++ Completed i None :: rest) s0 = Exited 1 s'
             ∧ console s' = console s ++ [Stdout (Text (no_binary file))]).
Proof.
  split; [|split].
  - intros Hnone. unfold flagList, flags. rewrite Hnone. simpl.
    split; [reflexivity|]. split; [|reflexivity].
    do 4 right. left.
  - intros custom Hsome.
    assert (Hflags : flags configuration = custom) by (unfold flags; rewrite Hsome; reflexivity).
    split; [assumption|].
    rewrite flagList_flattened, Hflags. split; [reflexivity|].
    apply elem_of_flattened.
  - intros i file before rest s0 s Hfile Hb0 Hemits Hrun.
    pose proof (run_no_binary _ _ _ _ _ Hemits Hb0 Hrun) as Hb.
    destruct (callback_cases configuration file i None s) as (s' & _ & _ & Hcb).
    rewrite Hb in Hcb. destruct Hcb as (Hcb & Hlog & _).
    exists s'. split; [|assumption].
    rewrite run_app, Hrun, run_cons. simpl. rewrite Hfile.
    unfold bind at 1. rewrite Hcb. reflexivity.
Qed.

(** ** The source maps *)

Lemma handle_forget configuration e s :
  forget_outcome (handle configuration e (forget s))
  = forget_outcome (handle configuration e s).
Proof.
  destruct e as [i|i name contents|i error]; simpl;
    destruct (testEntryFiles configuration !! i) as [file|]; try reflexivity.
  - unfold writeFile.
    destruct (String.eqb (path_extname name) ".wasm");
      [|destruct (String.eqb (path_extname name) ".map")]; reflexivity.
  - unfold callback, bind, get. simpl.
    destruct error as [e|]; [reflexivity|]. simpl.
    destruct (binaries s !! i) as [binary|]; simpl; [|reflexivity].
    destruct ((count s - 1 =? 0)%Z && _); reflexivity.
Qed.

Lemma run_forget configuration trace s :
  forget_outcome (run configuration trace (forget s))
  = forget_outcome (run configuration trace s).
Proof.
  revert s. induction trace as [|e trace IH]; intros s; [reflexivity|].
  rewrite !run_cons. pose proof (handle_forget configuration e s) as He.
  destruct (handle configuration e (forget s)) as [[] s1|code1 s1];
    destruct (handle configuration e s) as [[] s2|code2 s2]; try discriminate He.
  - assert (Hf : forget s1 = forget s2) by (simpl in He; congruence).
    rewrite <- (IH s1), <- (IH s2), Hf. reflexivity.
  - exact He.
Qed.

Lemma observable_forget (s1 s2 : State) :
  observable s1 = observable s2 ↔ forget s1 = forget s2.
Proof.
  unfold observable, forget. split.
  - intros [= -> -> -> -> -> -> ->]. reflexivity.
  - intros [= -> -> -> -> -> -> ->]. reflexivity.
Qed.

(** C10. There is one map of source maps for all the units of a run, and
    an artifact with the extension of a source map is stored in it under
    its name alone: after two units hand in maps of one name, the entry is
    the contents of the later one, and nothing is written to disk. The map
    is never read: two runs that start from states equal but for their
    source maps log, write, compile, instantiate, capture, count and exit
    alike. *)
Theorem shared_source_maps configuration :
  (∀ file i file' j name earlier later s,
     path_extname name = ".map" →
     ∃ s', (writeFile file i name earlier >> writeFile file' j name later) s
           = Returned tt s'
           ∧ sourcemaps s' = <[name := later]> (sourcemaps s)
           ∧ sourcemaps s' !! name = Some later
           ∧ written s' = written s ∧ binaries s' = binaries s)
  ∧ (∀ trace s1 s2,
       observable s1 = observable s2 →
       observable (final_state (run configuration trace s1))
       = observable (final_state (run configuration trace s2))
       ∧ exit_status (run configuration trace s1)
         = exit_status (run configuration trace s2)).
Proof.
  split.
  - intros file i file' j name earlier later s Hext.
    destruct (writeFile_cases file i name earlier s) as (s1 & Hw1 & _ & _ & _ & _ & _ & Hk1).
    destruct (writeFile_cases file' j name later s1) as (s' & Hw2 & _ & _ & _ & _ & _ & Hk2).
    rewrite Hext in Hk1, Hk2. simpl in Hk1, Hk2.
    destruct Hk1 as (Hb1 & Hm1 & Hd1), Hk2 as (Hb2 & Hm2 & Hd2).
    exists s'. split; [unfold bind; rewrite Hw1; exact Hw2|].
    rewrite Hm2, Hm1, insert_insert_eq, lookup_insert_eq.
    repeat split; congruence.
  - intros trace s1 s2 Hobs%observable_forget.
    pose proof (run_forget configuration trace s1) as H1.
    pose proof (run_forget configuration trace s2) as H2.
    rewrite Hobs, H2 in H1.
    destruct (run configuration trace s1) as [[] t1|code1 t1];
      destruct (run configuration trace s2) as [[] t2|code2 t2];
      try discriminate H1; simpl.
    + assert (Hf : forget t1 = forget t2) by (simpl in H1; congruence).
      apply observable_forget in Hf. split; [assumption|reflexivity].
    + assert (Hf : forget t1 = forget t2) by (simpl in H1; congruence).
      apply observable_forget in Hf. split; [assumption|]. simpl in H1. congruence.
Qed.

End Properties.

(** ** File resolution with expression objects *)




Section ResolutionWithObjectsFacts.
Context `{Host}.


End ResolutionWithObjectsFacts.

(** ** Expectations *)

(** C7. [.not] of an Expectation is bound to the same value, and a matcher
    called on it reports the negation of the normal verdict of the matcher,
    whatever the flag was before. The matcher is evaluated once, on the
    wrapped value: the guest is left as the matcher alone leaves it, and a
    matcher that counts its evaluations counts one. *)
Theorem negated_expectation {G T} (e : Assembly.Expectation T)
    (m : Assembly.Matcher G T) (g : G) :
  Assembly.actual (Assembly.not e) = Assembly.actual e
  ∧ fst (Assembly.report (Assembly.not e) m g) = negb (fst (m (Assembly.actual e) g))
  ∧ snd (Assembly.report (Assembly.not e) m g) = snd (m (Assembly.actual e) g)
  ∧ (∀ n, snd (snd (Assembly.report (Assembly.not e) (Assembly.counted m) (g, n))) = S n)
  ∧ fst (Assembly.report (Assembly.not (Assembly.expect (Assembly.actual e))) m g)
    = negb (fst (Assembly.report (Assembly.expect (Assembly.actual e)) m g)).
Proof.
  unfold Assembly.report, Assembly.counted. simpl.
  destruct (m (Assembly.actual e) g) as [verdict g'].
  split; [reflexivity|]. split; [reflexivity|]. split; [reflexivity|].
  split; [intros n; reflexivity|].
  destruct verdict; reflexivity.
Qed.

#[local] Set Warnings "-inexact-float".

Lemma epsilon_half_power (places : Z) :
  (Assembly.epsilon places == (1 # 2) * inject_Z 10 ^ (- places))%Q.
Proof.
  unfold Assembly.epsilon. destruct (Z.leb_spec 0 places) as [Hle|Hlt].
  - rewrite Qpower_opp, <- Zpower_Qpower by assumption.
    assert (0 < 10 ^ places)%Z as Hpos by (apply Z.pow_pos_nonneg; lia).
    destruct (10 ^ places)%Z as [|n|n]; try lia.
    reflexivity.
  - rewrite <- Zpower_Qpower by lia.
    unfold Qeq, Qmult, inject_Z. simpl. lia.
Qed.

(** C8. For finite values, the numbers [a] and [e] that the actual and the
    expected value stand for, and every number of decimal places, the
    verdict of [toBeCloseTo] is true exactly when the distance between [a]
    and [e] is less than half of ten to the minus [decimalPlaces], 2 places
    when none is given. [toBeCloseTo(42.001, 2)] on 42.0 passes and
    [toBeCloseTo(42.1, 2)] on 42.0 fails; a distance equal to the bound
    fails, at 0 places (0.5) and at -1 places (5). *)
Theorem close_to_verdict (actual expected : float) (decimalPlaces : option Z)
    (a e : Q) :
  Assembly.value actual = Some a →
  Assembly.value expected = Some e →
  (Assembly.toBeCloseTo expected decimalPlaces actual = true ↔
   (Qabs (a - e) < (1 # 2) * inject_Z 10 ^ (- Js.or_default decimalPlaces 2%Z))%Q)
  ∧ Assembly.toBeCloseTo expected None actual
    = Assembly.toBeCloseTo expected (Some 2%Z) actual
  ∧ Assembly.toBeCloseTo 42.001%float (Some 2%Z) 42.0%float = true
  ∧ Assembly.toBeCloseTo 42.1%float (Some 2%Z) 42.0%float = false
  ∧ fst (Assembly.report (Assembly.expect 42.0%float)
           (Assembly.pure (Assembly.toBeCloseTo 42.001%float None)) tt) = true
  ∧ Assembly.toBeCloseTo 42.25%float (Some 0%Z) 42.0%float = true
  ∧ Assembly.toBeCloseTo 42.5%float (Some 0%Z) 42.0%float = false
  ∧ Assembly.toBeCloseTo 42.001%float (Some 3%Z) 42.0%float = false
  ∧ Assembly.toBeCloseTo 46.5%float (Some (-1)%Z) 42.0%float = true
  ∧ Assembly.toBeCloseTo 47.0%float (Some (-1)%Z) 42.0%float = false
  ∧ Assembly.value 42.0%float = Some (42 # 1)
  ∧ Assembly.value 0.5%float = Some (1 # 2)
  ∧ Assembly.value (-0.75)%float = Some (-3 # 4)
  ∧ Assembly.value infinity = None
  ∧ Assembly.value nan = None.
Proof.
  intros Ha He. split.
  - unfold Assembly.toBeCloseTo. rewrite Ha, He.
    rewrite <- epsilon_half_power, negb_true_iff, <- not_true_iff_false,
      Qle_bool_iff.
    split; [apply Qnot_le_lt|apply Qlt_not_le].
  - split; [reflexivity|]. repeat split; vm_compute; reflexivity.
Qed.

(** * The theorems at work on the host of the examples *)

Lemma exit_status_of_the_run_witness :
  exit_status (asp (H:=Demo.host) None None (inr Js.Undefined) Demo.out_of_order initial) = 1%Z
  ∧ exit_status (asp (H:=Demo.host) None None (inr Js.Undefined) Demo.both_pass initial) = 0%Z.
Proof.
  destruct (exit_status_of_the_run (H:=Demo.host) None None Js.Undefined)
    as (_ & _ & _ & Hfail & Hpass & _).
  split.
  - apply Hfail.
    + apply perm_swap.
    + exists 0, (take 5 Demo.out_of_order), [].
      eexists. exists Demo.failing.
      split; [reflexivity|]. split; [vm_compute; reflexivity|].
      split; [vm_compute; eauto|]. split; reflexivity.
  - apply Hpass. intros before i error after s Htrace Hrun _.
    unfold Demo.both_pass in Htrace.
    destruct before as [|e0 before]; [discriminate Htrace|].
    injection Htrace as <- Htrace.
    destruct before as [|e1 before].
    { injection Htrace as <- <- <-. vm_compute in Hrun. injection Hrun as <-.
      split; [reflexivity|]. exists Demo.passing. split; reflexivity. }
    injection Htrace as <- Htrace.
    destruct before as [|e2 before]; [discriminate Htrace|].
    injection Htrace as <- Htrace.
    destruct before as [|e3 before].
    { injection Htrace as <- <- <-. vm_compute in Hrun. injection Hrun as <-.
      split; [reflexivity|]. exists Demo.passing. split; reflexivity. }
    injection Htrace as <- Htrace.
    destruct before; discriminate Htrace.
Defined.

Lemma fatal_completion_witness :
  exit_status
    (run (H:=Demo.host) empty_configuration
       [Completed 0 (Some {| message := "ERROR TS1005" |}); Completed 1 None]
       (started (H:=Demo.host) None None Js.Undefined)) = 1%Z
  ∧ exit_status
      (run (H:=Demo.host) empty_configuration
         [Completed 1 None; Completed 0 None]
         (started (H:=Demo.host) None None Js.Undefined)) = 1%Z.
Proof.
  split.
  - destruct (fatal_completion (H:=Demo.host) empty_configuration Demo.a_spec 0
                (started (H:=Demo.host) None None Js.Undefined) eq_refl)
      as (Herror & _ & _).
    destruct (Herror {| message := "ERROR TS1005" |} [Completed 1 None])
      as (s' & -> & _).
    reflexivity.
  - destruct (fatal_completion (H:=Demo.host) empty_configuration Demo.b_spec 1
                (started (H:=Demo.host) None None Js.Undefined) eq_refl)
      as (_ & Hmissing & _).
    destruct (Hmissing eq_refl [Completed 0 None]) as (s' & -> & _).
    reflexivity.
Defined.

Lemma write_sink_witness :
  written
    (final_state
       (writeFile (H:=Demo.host) Demo.a_spec 0 "output.wat" Demo.passing initial))
  = [("assembly/__tests__/a.spec.wat", Demo.passing)]
  ∧ binaries
      (final_state
         (writeFile (H:=Demo.host) Demo.a_spec 0 "output.wasm" Demo.passing initial))
    !! 0 = Some Demo.passing.
Proof.
  split.
  - destruct (write_sink (H:=Demo.host) empty_configuration Demo.a_spec 0
                "output.wat" Demo.passing initial) as (_ & _ & Hother & _).
    assert (Hwasm : path_extname (Host:=Demo.host) "output.wat" ≠ ".wasm")
      by (vm_compute; discriminate).
    assert (Hmap : path_extname (Host:=Demo.host) "output.wat" ≠ ".map")
      by (vm_compute; discriminate).
    destruct (Hother Hwasm Hmap) as (s' & Hw & Hd & _).
    rewrite Hw. simpl. rewrite Hd. vm_compute. reflexivity.
  - destruct (write_sink (H:=Demo.host) empty_configuration Demo.a_spec 0
                "output.wasm" Demo.passing initial) as (Hbinary & _).
    assert (Hwasm : path_extname (Host:=Demo.host) "output.wasm" = ".wasm")
      by (vm_compute; reflexivity).
    destruct (Hbinary Hwasm) as (s' & Hw & Hb & _).
    rewrite Hw. simpl. rewrite Hb. apply lookup_insert_eq.
Defined.

Lemma mandatory_binary_flag_witness :
  flagList (H:=Demo.host) Demo.text_only = ["--validate"; "--textFile"; "output.wat"]
  ∧ exit_status
      (run (H:=Demo.host) Demo.text_only
         [WriteFile 0 "output.wat" Demo.passing; Completed 0 None; Completed 1 None]
         initial) = 1%Z.
Proof.
  destruct (mandatory_binary_flag (H:=Demo.host) Demo.text_only)
    as (_ & Hcustom & Hmissing).
  split.
  - destruct (Hcustom _ eq_refl) as (_ & -> & _). reflexivity.
  - assert (Hemits : emits_no_binary (H:=Demo.host) 0
                       [WriteFile 0 "output.wat" Demo.passing]).
    { intros name contents [= -> ->]%list_elem_of_singleton.
      vm_compute. discriminate. }
    destruct (Hmissing 0 Demo.a_spec [WriteFile 0 "output.wat" Demo.passing]
                [Completed 1 None] initial
                (final_state (run (H:=Demo.host) Demo.text_only
                                [WriteFile 0 "output.wat" Demo.passing] initial))
                eq_refl eq_refl Hemits eq_refl)
      as (s' & Hrun & _).
    simpl app in Hrun. rewrite Hrun. reflexivity.
Defined.

Lemma configuration_check_unreachable_witness :
  check_configuration (H:=Demo.host) "as-pect.config.js"
    (Js.Object empty_configuration) initial = Returned tt initial.
Proof.
  destruct (configuration_check_unreachable (H:=Demo.host) "as-pect.config.js" initial)
    as (_ & _ & Hcheck & _).
  apply (Hcheck (inr Js.Null)). reflexivity.
Defined.

Lemma shared_source_maps_witness :
  sourcemaps
    (final_state
       ((writeFile (H:=Demo.host) Demo.a_spec 0 "output.wasm.map" Demo.failing
         >> writeFile (H:=Demo.host) Demo.b_spec 1 "output.wasm.map" Demo.passing)
          initial))
  !! "output.wasm.map" = Some Demo.passing
  ∧ exit_status (run (H:=Demo.host) empty_configuration Demo.both_pass initial)
    = exit_status (run (H:=Demo.host) empty_configuration Demo.both_pass
                     (final_state
                        (writeFile (H:=Demo.host) Demo.a_spec 0 "output.wasm.map"
                           Demo.failing initial))).
Proof.
  destruct (shared_source_maps (H:=Demo.host) empty_configuration)
    as (Hoverwrite & Hunread).
  split.
  - assert (Hmap : path_extname (Host:=Demo.host) "output.wasm.map" = ".map")
      by (vm_compute; reflexivity).
    destruct (Hoverwrite Demo.a_spec 0 Demo.b_spec 1 "output.wasm.map"
                Demo.failing Demo.passing initial Hmap) as (s' & Hw & _ & Hentry & _).
    rewrite Hw. exact Hentry.
  - apply Hunread. reflexivity.
Defined.

Lemma close_to_verdict_witness :
  (Qabs ((42 # 1) - (5911115248412131 # 140737488355328))
   < (1 # 2) * inject_Z 10 ^ (- 2))%Q.
Proof.
  assert (Ha : Assembly.value 42.0%float = Some (42 # 1))
    by (vm_compute; reflexivity).
  assert (He : Assembly.value 42.001%float
               = Some (5911115248412131 # 140737488355328))
    by (vm_compute; reflexivity).
  destruct (close_to_verdict 42.0%float 42.001%float None _ _ Ha He)
    as (Hverdict & _).
  apply Hverdict. vm_compute. reflexivity.
Defined.



(** * Further properties of the program *)

(** ** The init script *)

Section InitFacts.
Context `{Host}.

Lemma init_guarded (w : Scaffold) :
  init w
  = guarded configFile
      (λ w, pipe configFileSource configFile
              (say (chalk "[Log] Creating file: as-pect.config.js") w))
      (guarded typesFile
         (λ w, pipe typesFileSource typesFile
                 (say (chalk "[Log] Creating file: assembly/__tests__/as-pect.d.ts") w))
         (guarded testFolder
            (λ w, guarded exampleFile
                    (λ w, pipe exampleFileSource exampleFile
                            (say (chalk "[Log] Creating file: ./assembly/__tests__/example.spec.ts") w))
                    (fs_mkdirSync testFolder
                       (say (chalk "[Log] Creating folder: ./assembly/__tests__/") w)))
            (guarded assemblyFolder
               (λ w, fs_mkdirSync assemblyFolder
                       (say (chalk "[Log] Creating folder: ./assembly/") w))
               (say "" (say (chalk "[Log] Initializing test suite files.") (say "" w)))))).
Proof. cbv beta zeta delta [init guarded]. reflexivity. Qed.

Lemma not_existing (path : string) (w : Scaffold) :
  fs_existsSync path w = false → path ∉ existing w.
Proof. unfold fs_existsSync. intros Hb. by apply bool_decide_eq_false in Hb. Qed.

Lemma careful_say files text w : careful files w → careful files (say text w).
Proof. intros Hw. exact Hw. Qed.

Lemma careful_mkdir files path w :
  careful files w → path ∉ existing w → careful files (fs_mkdirSync path w).
Proof.
  intros (Hex & Hmade & Hpiped) Hp. split; [|split]; simpl.
  - rewrite Hex, list_to_set_app_L. simpl.
    apply set_eq. intros q.
    rewrite !elem_of_union, elem_of_singleton, elem_of_empty. tauto.
  - intros q [Hq| ->%list_elem_of_singleton]%elem_of_app; [by apply Hmade|].
    intros Hq. apply Hp. rewrite Hex, elem_of_union. by left.
  - exact Hpiped.
Qed.

Lemma careful_pipe files source target w :
  careful files w → target ∉ existing w → careful files (pipe source target w).
Proof.
  intros (Hex & Hmade & Hpiped) Hp. split; [|split]; simpl.
  - exact Hex.
  - exact Hmade.
  - intros src tgt [Hq| [= -> ->]%list_elem_of_singleton]%elem_of_app;
      [by eapply Hpiped|].
    intros Hq. apply Hp. rewrite Hex, elem_of_union. by left.
Qed.

Lemma careful_guarded files path action w :
  (∀ w, careful files w → path ∉ existing w → careful files (action w)) →
  careful files w → careful files (guarded path action w).
Proof.
  intros Haction Hw. unfold guarded.
  destruct (fs_existsSync path w) eqn:Hp; [assumption|].
  apply Haction; [assumption|]. by apply not_existing.
Qed.

Lemma careful_init files shown : careful files (init (untouched files shown)).
Proof.
  rewrite init_guarded.
  apply careful_guarded.
  { intros w Hw Hp. by apply careful_pipe, Hp; apply careful_say. }
  apply careful_guarded.
  { intros w Hw Hp. by apply careful_pipe, Hp; apply careful_say. }
  apply careful_guarded.
  { intros w Hw Hp. apply careful_guarded.
    - intros w' Hw' Hp'. by apply careful_pipe, Hp'; apply careful_say.
    - by apply careful_mkdir, Hp; apply careful_say. }
  apply careful_guarded.
  { intros w Hw Hp. by apply careful_mkdir, Hp; apply careful_say. }
  repeat apply careful_say.
  split; [|split]; simpl.
  - rewrite union_empty_r_L. reflexivity.
  - intros path Hin. by apply elem_of_nil in Hin.
  - intros source target Hin. by apply elem_of_nil in Hin.
Qed.

(** The init script only adds what is missing: the paths that exist stay,
    a folder is made and a copy is started only at a path that did not
    exist, and the paths that exist on return are the old ones and the
    folders made. *)
Theorem init_creates_only_missing (files : gset string) (shown : list line) :
  files ⊆ existing (init (untouched files shown))
  ∧ existing (init (untouched files shown))
    = files ∪ list_to_set (made (init (untouched files shown)))
  ∧ (∀ path, path ∈ made (init (untouched files shown)) → path ∉ files)
  ∧ (∀ source target,
       (source, target) ∈ piped (init (untouched files shown)) → target ∉ files).
Proof.
  destruct (careful_init files shown) as (Hex & Hmade & Hpiped).
  split; [rewrite Hex; apply union_subseteq_l|].
  split; [exact Hex|]. split; assumption.
Qed.

Ltac set_cases :=
  apply set_eq; intros ?;
  rewrite ?elem_of_union, ?elem_of_singleton, ?elem_of_empty;
  intuition (subst; auto).

Lemma settled_pipe source target w :
  settled (pipe source target w) = settled w ∪ {[target]}
  ∧ existing (pipe source target w) = existing w.
Proof.
  split; [|reflexivity]. unfold settled. simpl.
  rewrite fmap_app, list_to_set_app_L. simpl. set_cases.
Qed.

Lemma settled_mkdir path w :
  settled (fs_mkdirSync path w) = settled w ∪ {[path]}
  ∧ existing (fs_mkdirSync path w) = existing w ∪ {[path]}.
Proof. unfold settled. simpl. split; set_cases. Qed.

Lemma existing_settled path w : path ∈ existing w → path ∈ settled w.
Proof. unfold settled. rewrite elem_of_union. by left. Qed.

(** A guarded copy: the target is there afterwards, nothing else is new. *)
Lemma settled_guarded_pipe source target text w :
  settled (guarded target (λ w, pipe source target (say text w)) w)
  = settled w ∪ {[target]}
  ∧ existing (guarded target (λ w, pipe source target (say text w)) w)
    = existing w.
Proof.
  unfold guarded, fs_existsSync. case_bool_decide as Hp.
  - split; [|reflexivity]. apply existing_settled in Hp. set_cases.
  - apply (settled_pipe source target (say text w)).
Qed.

(** A guarded folder: the folder is there afterwards, nothing else is
    new. *)
Lemma settled_guarded_mkdir path text w :
  settled (guarded path (λ w, fs_mkdirSync path (say text w)) w)
  = settled w ∪ {[path]}
  ∧ existing (guarded path (λ w, fs_mkdirSync path (say text w)) w)
    = existing w ∪ {[path]}.
Proof.
  unfold guarded, fs_existsSync. case_bool_decide as Hp.
  - pose proof (existing_settled _ _ Hp). split; set_cases.
  - apply (settled_mkdir path (say text w)).
Qed.

(** The test folder with its example: the folder is there afterwards,
    and the example too when the folder was missing. *)
Lemma settled_guarded_folder (w : Scaffold) :
  settled
    (guarded testFolder
       (λ w, guarded exampleFile
               (λ w, pipe exampleFileSource exampleFile
                       (say (chalk "[Log] Creating file: ./assembly/__tests__/example.spec.ts") w))
               (fs_mkdirSync testFolder
                  (say (chalk "[Log] Creating folder: ./assembly/__tests__/") w)))
       w)
  = settled w ∪ {[testFolder]}
    ∪ (if bool_decide (testFolder ∈ existing w) then ∅ else {[exampleFile]})
  ∧ existing
      (guarded testFolder
         (λ w, guarded exampleFile
                 (λ w, pipe exampleFileSource exampleFile
                         (say (chalk "[Log] Creating file: ./assembly/__tests__/example.spec.ts") w))
                 (fs_mkdirSync testFolder
                    (say (chalk "[Log] Creating folder: ./assembly/__tests__/") w)))
         w)
    = existing w ∪ {[testFolder]}.
Proof.
  unfold guarded at 1 3. unfold fs_existsSync.
  destruct (decide (testFolder ∈ existing w)) as [Hp|Hp].
  - rewrite !(bool_decide_eq_true_2 _ Hp).
    pose proof (existing_settled _ _ Hp). split; set_cases.
  - rewrite !(bool_decide_eq_false_2 _ Hp).
    rewrite (proj1 (settled_guarded_pipe exampleFileSource exampleFile _ _)),
      (proj2 (settled_guarded_pipe exampleFileSource exampleFile _ _)).
    rewrite (proj1 (settled_mkdir testFolder _)), (proj2 (settled_mkdir testFolder _)).
    split; reflexivity.
Qed.

(** What the init script leaves once the copies are done: the paths that
    existed, both folders, the types and the configuration, and the
    example when the test folder was missing after the assembly folder was
    seen to. *)
Lemma settled_init (w : Scaffold) :
  settled (init w)
  = settled w ∪ {[assemblyFolder]} ∪ {[testFolder]}
    ∪ (if bool_decide (testFolder ∈ existing w ∪ {[assemblyFolder]})
       then ∅ else {[exampleFile]})
    ∪ {[typesFile]} ∪ {[configFile]}
  ∧ existing (init w)
    = existing w ∪ {[assemblyFolder]} ∪ {[testFolder]}.
Proof.
  rewrite init_guarded.
  rewrite (proj1 (settled_guarded_pipe configFileSource configFile _ _)),
    (proj2 (settled_guarded_pipe configFileSource configFile _ _)).
  rewrite (proj1 (settled_guarded_pipe typesFileSource typesFile _ _)),
    (proj2 (settled_guarded_pipe typesFileSource typesFile _ _)).
  rewrite (proj1 (settled_guarded_folder _)), (proj2 (settled_guarded_folder _)).
  rewrite (proj1 (settled_guarded_mkdir assemblyFolder _ _)),
    (proj2 (settled_guarded_mkdir assemblyFolder _ _)).
  split; reflexivity.
Qed.

Lemma settled_untouched (files : gset string) (shown : list line) :
  settled (untouched files shown) = files.
Proof. unfold settled. simpl. apply union_empty_r_L. Qed.

Lemma guarded_existing path action w :
  path ∈ existing w → guarded path action w = w.
Proof.
  intros Hp. unfold guarded, fs_existsSync.
  rewrite (bool_decide_eq_true_2 _ Hp). reflexivity.
Qed.

(** With both folders, the types file and the configuration file in
    place, the init script only logs its heading. *)
Lemma init_nothing_to_do (w : Scaffold) :
  assemblyFolder ∈ existing w → testFolder ∈ existing w →
  typesFile ∈ existing w → configFile ∈ existing w →
  init w = say "" (say (chalk "[Log] Initializing test suite files.") (say "" w)).
Proof.
  intros Ha Ht Hy Hc. rewrite init_guarded.
  rewrite (guarded_existing assemblyFolder) by exact Ha.
  rewrite (guarded_existing testFolder) by exact Ht.
  rewrite (guarded_existing typesFile) by exact Hy.
  rewrite (guarded_existing configFile) by exact Hc.
  reflexivity.
Qed.

(** Running the init script again, once the copies of the first run are
    done, makes no folder and starts no copy: the files are as the first
    run left them. *)
Theorem init_again_changes_nothing (files : gset string) (shown shown' : list line) :
  made (init (untouched (settled (init (untouched files shown))) shown')) = []
  ∧ piped (init (untouched (settled (init (untouched files shown))) shown')) = []
  ∧ existing (init (untouched (settled (init (untouched files shown))) shown'))
    = settled (init (untouched files shown)).
Proof.
  destruct (settled_init (untouched files shown)) as [Hsettled Hexisting].
  assert (Ha : assemblyFolder ∈ existing (init (untouched files shown))).
  { rewrite Hexisting, !elem_of_union, !elem_of_singleton. tauto. }
  assert (Ht : testFolder ∈ existing (init (untouched files shown))).
  { rewrite Hexisting, !elem_of_union, !elem_of_singleton. tauto. }
  assert (Hy : typesFile ∈ settled (init (untouched files shown))).
  { rewrite Hsettled, !elem_of_union, !elem_of_singleton. tauto. }
  assert (Hc : configFile ∈ settled (init (untouched files shown))).
  { rewrite Hsettled, !elem_of_union, !elem_of_singleton. tauto. }
  rewrite init_nothing_to_do; simpl; [repeat split|..]; try assumption;
    by apply existing_settled.
Qed.

(** The example is never copied into a test folder that was there: when
    the test folder exists, the example is missing and its path is no
    other path of the scaffold, the example is still missing once the
    copies of the init script are done. *)
Theorem example_needs_a_new_folder (files : gset string) (shown : list line) :
  testFolder ∈ files →
  exampleFile ∉ files →
  exampleFile ≠ assemblyFolder → exampleFile ≠ typesFile →
  exampleFile ≠ configFile →
  (exampleFile ∉ settled (init (untouched files shown)))
  ∧ (∀ source, (source, exampleFile) ∉ piped (init (untouched files shown))).
Proof.
  intros Hfolder Hmissing Ha Hy Hc.
  assert (Hsettled : exampleFile ∉ settled (init (untouched files shown))).
  { rewrite (proj1 (settled_init (untouched files shown))), settled_untouched. simpl.
    rewrite bool_decide_eq_true_2 by (rewrite elem_of_union; by left).
    rewrite !elem_of_union, !elem_of_singleton, elem_of_empty.
    intros [[[[[Hin|Heq]|Heq]|Hempty]|Heq]|Heq]; try contradiction.
    rewrite Heq in Hmissing. contradiction. }
  split; [assumption|].
  intros source Hpiped. apply Hsettled. unfold settled.
  rewrite elem_of_union, elem_of_list_to_set. right.
  apply list_elem_of_fmap. exists (source, exampleFile). split; [reflexivity|assumption].
Qed.

End InitFacts.

(** ** File resolution, again *)

Lemma uniq_app_redundant (l l' : list string) :
  (∀ x, x ∈ l' → x ∈ l) → uniq (l ++ l') = uniq l.
Proof.
  induction l' as [|y l' IH] using rev_ind; intros Hsub.
  - rewrite app_nil_r. reflexivity.
  - rewrite app_assoc, uniq_snoc, IH.
    + rewrite bool_decide_eq_true_2; [reflexivity|].
      apply elem_of_uniq, Hsub. rewrite elem_of_app, list_elem_of_singleton. by right.
    + intros x Hx. apply Hsub. rewrite elem_of_app. by left.
Qed.

Section ResolutionFacts.
Context `{Host}.
Implicit Types (configuration : IConfiguration.t) (s : State) (trace : list event).

(** Include patterns that match nothing new change nothing: when every
    file of the later patterns is a file of an earlier one, the resolved
    spec files are those of the earlier patterns alone. *)
Theorem redundant_patterns_change_nothing configuration configuration' patterns :
  include configuration' = include configuration ++ patterns →
  disclude configuration' = disclude configuration →
  (∀ pattern file,
     pattern ∈ patterns → file ∈ glob_sync pattern →
     ∃ earlier, earlier ∈ include configuration ∧ file ∈ glob_sync earlier) →
  testEntryFiles configuration' = testEntryFiles configuration.
Proof.
  intros Hinclude Hdisclude Hold.
  rewrite !testEntryFiles_filter, Hinclude, map_app, concat_app.
  unfold excluded. rewrite Hdisclude.
  rewrite uniq_app_redundant; [reflexivity|].
  intros file. rewrite !list_elem_of_In, !in_concat.
  intros (l & Hl & Hfile). apply in_map_iff in Hl as (pattern & <- & Hpattern).
  destruct (Hold pattern file) as (earlier & Hearlier & Hmatch);
    [by apply list_elem_of_In|by apply list_elem_of_In|].
  exists (glob_sync earlier). rewrite in_map_iff, <- !list_elem_of_In.
  split; [|assumption]. exists earlier. rewrite <- list_elem_of_In. tauto.
Qed.

(** A configuration module that exports anything but an object is not
    refused: a falsy value and a truthy primitive both give the run of the
    empty configuration, with every option at its default. *)
Theorem exports_other_than_objects (c config : option string)
    (exports : Module_exports) (trace : list event) :
  (∀ o, exports ≠ Js.Object o) →
  asp c config (inr exports) trace initial
  = asp c config (inr (Js.Object empty_configuration)) trace initial.
Proof.
  intros Hprimitive.
  assert (Hoptions : configured exports = empty_configuration).
  { unfold configured, Js.or.
    destruct (Js.ToBoolean exports); [|reflexivity].
    destruct exports; try reflexivity. destruct (Hprimitive o). reflexivity. }
  unfold asp, load_configuration, require_configuration, check_configuration, bind, ret.
  simpl. rewrite !or_object_truthy. simpl.
  fold (configured exports). rewrite Hoptions. reflexivity.
Qed.

End ResolutionFacts.

Section ResolutionWithObjectsAgain.
Context `{Host}.


End ResolutionWithObjectsAgain.

(** ** Runs, again *)

Section RunFacts.
Context `{Host}.
Implicit Types (configuration : IConfiguration.t) (s : State) (trace : list event).

Lemma handle_own_binary configuration e i s :
  binaries (final_state (handle configuration e s)) !! i
  = match last (own_binaries configuration i [e]) with
    | Some binary => Some binary
    | None => binaries s !! i
    end.
Proof.
  destruct e as [j|j name contents|j error].
  - simpl. destruct (testEntryFiles configuration !! j) as [file|]; [|reflexivity].
    destruct (compile_cases configuration file j s) as (s' & Hc & _ & _ & _ & Hb & _).
    rewrite Hc. simpl. rewrite Hb. reflexivity.
  - unfold own_binaries. simpl.
    destruct (testEntryFiles configuration !! j) as [file|] eqn:Hfile.
    + destruct (writeFile_cases file j name contents s)
        as (s' & Hw & _ & _ & _ & _ & _ & Hk).
      rewrite Hw. simpl final_state.
      rewrite (bool_decide_eq_true_2 (is_Some (Some file))) by eauto.
      rewrite andb_true_r. simpl.
      destruct (String.eqb (path_extname name) ".wasm").
      * destruct Hk as (-> & _). rewrite andb_true_r.
        case_bool_decide as Hj; simpl.
        -- subst j. apply lookup_insert_eq.
        -- by apply lookup_insert_ne.
      * rewrite andb_false_r. simpl.
        destruct (String.eqb (path_extname name) ".map"); destruct Hk as (-> & _);
          reflexivity.
    + rewrite (bool_decide_eq_false_2 (is_Some None)) by (intros [? ?]; discriminate).
      rewrite andb_false_r. reflexivity.
  - pose proof (handle_completed_same configuration j error s) as (_ & _ & -> & _).
    reflexivity.
Qed.

Lemma own_binaries_cons configuration i e trace :
  own_binaries configuration i (e :: trace)
  = own_binaries configuration i [e] ++ own_binaries configuration i trace.
Proof. unfold own_binaries. simpl. rewrite app_nil_r. reflexivity. Qed.

(** The binary of a unit is its own: the binary held under [i] after a
    run is the last binary-kind artifact that the compiler of unit [i]
    handed to the sink, whatever the other units handed in, and it is the
    one given to the loader when unit [i] then completes without error. *)
Theorem binary_of_a_unit configuration i file before s0 s :
  testEntryFiles configuration !! i = Some file →
  run configuration before s0 = Returned tt s →
  binaries s !! i
  = match last (own_binaries configuration i before) with
    | Some binary => Some binary
    | None => binaries s0 !! i
    end
  ∧ ∀ binary,
      binaries s !! i = Some binary →
      instantiated (final_state (handle configuration (Completed i None) s))
      = instantiated s ++ [binary].
Proof.
  intros Hfile Hrun. split.
  - revert s0 Hrun. induction before as [|e before IH]; intros s0.
    + intros [= <-]. reflexivity.
    + intros (s1 & He & Hr)%run_cons_returned.
      rewrite own_binaries_cons, last_app, (IH s1 Hr).
      pose proof (handle_own_binary configuration e i s0) as Hown.
      rewrite He in Hown. simpl in Hown. rewrite Hown.
      destruct (last (own_binaries configuration i before)); reflexivity.
  - intros binary Hb. simpl. rewrite Hfile. unfold bind at 1.
    destruct (callback_cases configuration file i None s) as (s' & _ & _ & Hcb).
    rewrite Hb in Hcb. destruct Hcb as (-> & _ & _ & Hi).
    destruct ((count s' =? 0)%Z && failed s'); exact Hi.
Qed.

Lemma none_fatal_cons configuration e trace s s1 :
  none_fatal configuration s (e :: trace) →
  handle configuration e s = Returned tt s1 →
  none_fatal configuration s1 trace.
Proof.
  intros Hnone He before i error after s' -> Hr.
  apply (Hnone (e :: before) i error after s'); [reflexivity|].
  rewrite run_cons, He. assumption.
Qed.

Lemma run_pending configuration trace s :
  of_units configuration trace →
  none_fatal configuration s trace →
  (Z.of_nat (length (completions trace)) < count s)%Z →
  ∃ s', run configuration trace s = Returned tt s'
        ∧ count s' = (count s - Z.of_nat (length (completions trace)))%Z.
Proof.
  revert s. induction trace as [|e trace IH]; intros s Hunits Hnone Hless.
  - exists s. split; [reflexivity|]. simpl. lia.
  - assert (∃ s1, handle configuration e s = Returned tt s1
             ∧ count s1 = (count s - Z.of_nat (length (completions [e])))%Z)
      as (s1 & He & Hc).
    { destruct e as [i|i name contents|i error].
      - destruct (handle_other configuration (Compile i) s) as (s1 & He & _ & Hc);
          [discriminate|]. exists s1. split; [assumption|]. simpl. lia.
      - destruct (handle_other configuration (WriteFile i name contents) s)
          as (s1 & He & _ & Hc); [discriminate|].
        exists s1. split; [assumption|]. simpl. lia.
      - apply Forall_cons_1 in Hunits as [[file Hfile] _].
        destruct (Hnone [] i error trace s eq_refl eq_refl) as (-> & binary & Hb).
        simpl handle. rewrite Hfile. unfold bind at 1.
        destruct (callback_cases configuration file i None s) as (s1 & _ & Hc & Hcb).
        rewrite Hb in Hcb. destruct Hcb as (-> & _).
        assert ((count s1 =? 0)%Z = false) as ->.
        { apply Z.eqb_neq. unfold completions in Hless. simpl in Hless. lia. }
        exists s1. split; [reflexivity|]. simpl. lia. }
    assert (Hsplit : length (completions (e :: trace))
                     = length (completions [e]) + length (completions trace)).
    { unfold completions. simpl. rewrite app_nil_r, length_app. reflexivity. }
    destruct (IH s1) as (s' & Hr & Hc').
    + eapply of_units_cons, Hunits.
    + eapply none_fatal_cons; eassumption.
    + lia.
    + exists s'. split; [rewrite run_cons, He; assumption|]. lia.
Qed.

(** A failure shows in the exit status only when the last unit completes:
    as long as fewer completions than resolved spec files have arrived,
    and none was fatal, the run has not exited, failures or not, so a run
    that ends there ends with status 0. *)
Theorem failures_wait_for_the_last_unit (c config : option string)
    (exports : Module_exports) (trace : list event) :
  of_units (configured exports) trace →
  none_fatal (configured exports) (started c config exports) trace →
  length (completions trace) < length (testEntryFiles (configured exports)) →
  exit_status (asp c config (inr exports) trace initial) = 0%Z
  ∧ count (final_state (asp c config (inr exports) trace initial))
    = (Z.of_nat (length (testEntryFiles (configured exports)))
       - Z.of_nat (length (completions trace)))%Z.
Proof.
  intros Hunits Hnone Hless. rewrite asp_started.
  destruct (started_state c config exports) as (Hcount & _).
  destruct (run_pending _ trace (started c config exports) Hunits Hnone)
    as (s' & -> & Hc); [lia|].
  split; [reflexivity|]. simpl. lia.
Qed.

Lemma handle_count configuration e s :
  ∃ d : nat,
    d ≤ length (completions [e])
    ∧ count (final_state (handle configuration e s)) = (count s - Z.of_nat d)%Z.
Proof.
  destruct e as [i|i name contents|i error].
  - destruct (handle_other configuration (Compile i) s) as (s1 & -> & _ & Hc);
      [discriminate|]. exists 0. simpl. split; lia.
  - destruct (handle_other configuration (WriteFile i name contents) s)
      as (s1 & -> & _ & Hc); [discriminate|]. exists 0. simpl. split; lia.
  - simpl handle.
    destruct (testEntryFiles configuration !! i) as [file|];
      [|exists 0; simpl; split; lia].
    exists 1. split; [reflexivity|]. unfold bind at 1.
    destruct (callback_cases configuration file i error s) as (s' & _ & Hc & Hcb).
    destruct error as [e|]; [destruct Hcb as [-> _]; simpl; lia|].
    destruct (binaries s !! i) as [binary|]; destruct Hcb as [-> _]; [|simpl; lia].
    destruct ((count s' =? 0)%Z && failed s'); simpl; lia.
Qed.

Lemma run_count_bounds configuration trace s :
  ∃ d : nat,
    d ≤ length (completions trace)
    ∧ count (final_state (run configuration trace s)) = (count s - Z.of_nat d)%Z.
Proof.
  revert s. induction trace as [|e trace IH]; intros s.
  - exists 0. simpl. split; lia.
  - assert (Hsplit : length (completions (e :: trace))
                     = length (completions [e]) + length (completions trace)).
    { unfold completions. simpl. rewrite app_nil_r, length_app. reflexivity. }
    rewrite run_cons. destruct (handle_count configuration e s) as (d1 & Hd1 & He).
    destruct (handle configuration e s) as [[] s1|code s1]; simpl in He.
    + destruct (IH s1) as (d2 & Hd2 & Hr). exists (d1 + d2). split; lia.
    + exists d1. split; [lia|exact He].
Qed.

(** The pending counter stays between zero and the number of resolved spec
    files as long as no unit completes twice. *)
Theorem pending_counter_bounds (c config : option string)
    (exports : Module_exports) (trace : list event) :
  of_units (configured exports) trace →
  NoDup (completions trace) →
  (0 ≤ count (final_state (asp c config (inr exports) trace initial))
   ≤ Z.of_nat (length (testEntryFiles (configured exports))))%Z.
Proof.
  intros Hunits Hnodup. rewrite asp_started.
  destruct (started_state c config exports) as (Hcount & _).
  destruct (run_count_bounds (configured exports) trace (started c config exports))
    as (d & Hd & ->).
  assert (Hle : length (completions trace)
                ≤ length (seq 0 (length (testEntryFiles (configured exports))))).
  { apply submseteq_length, NoDup_submseteq; [assumption|].
    intros i Hi. apply elem_of_seq.
    unfold of_units in Hunits. rewrite Forall_forall in Hunits.
    apply Hunits, lookup_lt_is_Some in Hi. lia. }
  rewrite length_seq in Hle. lia.
Qed.

Lemma handle_compiled configuration e s :
  compiled (final_state (handle configuration e s))
  = compiled s ++ started_inputs configuration [e].
Proof.
  destruct e as [i|i name contents|i error]; unfold started_inputs; simpl.
  - destruct (testEntryFiles configuration !! i) as [file|];
      [|rewrite app_nil_r; reflexivity].
    destruct (compile_cases configuration file i s) as (s' & Hc & Hs & _).
    rewrite Hc. simpl. rewrite Hs. reflexivity.
  - rewrite app_nil_r.
    destruct (testEntryFiles configuration !! i) as [file|]; [|reflexivity].
    destruct (writeFile_cases file i name contents s) as (s' & Hw & _ & Hs & _).
    rewrite Hw. simpl. rewrite Hs. reflexivity.
  - rewrite app_nil_r.
    pose proof (handle_completed_same configuration i error s) as (_ & Hc & _).
    exact Hc.
Qed.

Lemma started_inputs_none configuration trace :
  (∀ i, Compile i ∉ trace) → started_inputs configuration trace = [].
Proof.
  induction trace as [|e trace IH]; intros Hnone; [reflexivity|].
  assert (Hrest : started_inputs configuration trace = []).
  { apply IH. intros i Hi. apply (Hnone i). by right. }
  destruct e as [i|i name contents|i error]; [|exact Hrest..].
  destruct (Hnone i). by left.
Qed.

(** The compiler is called when the loop starts a unit and at no other
    time: the calls of a run are the inputs of the units started by the
    events it ran, in that order, and neither the sink nor a completion
    adds one. *)
Theorem compiler_called_by_the_loop_only configuration trace s :
  (∃ k, compiled (final_state (run configuration trace s))
        = compiled s ++ started_inputs configuration (take k trace))
  ∧ (∀ s', run configuration trace s = Returned tt s' →
           compiled s' = compiled s ++ started_inputs configuration trace)
  ∧ ((∀ i, Compile i ∉ trace) →
     compiled (final_state (run configuration trace s)) = compiled s).
Proof.
  assert (Hreturned : ∀ trace s s', run configuration trace s = Returned tt s' →
    compiled s' = compiled s ++ started_inputs configuration trace).
  { clear. intros trace. induction trace as [|e trace IH]; intros s s'.
    - intros [= <-]. unfold started_inputs. simpl. rewrite app_nil_r. reflexivity.
    - intros (s1 & He & Hr)%run_cons_returned. rewrite (IH s1 s' Hr).
      pose proof (handle_compiled configuration e s) as Hc.
      rewrite He in Hc. simpl in Hc. rewrite Hc.
      unfold started_inputs. simpl. rewrite app_nil_r, <- app_assoc. reflexivity. }
  assert (Hprefix : ∀ trace s, ∃ k,
    compiled (final_state (run configuration trace s))
    = compiled s ++ started_inputs configuration (take k trace)).
  { clear. intros trace. induction trace as [|e trace IH]; intros s.
    - exists 0. simpl. rewrite app_nil_r. reflexivity.
    - rewrite run_cons. pose proof (handle_compiled configuration e s) as He.
      destruct (handle configuration e s) as [[] s1|code s1]; simpl in He.
      + destruct (IH s1) as (k & Hk). exists (S k).
        rewrite Hk, He. unfold started_inputs. simpl.
        rewrite app_nil_r, <- app_assoc. reflexivity.
      + exists 1. exact He. }
  split; [apply Hprefix|]. split; [apply Hreturned|].
  intros Hnone. destruct (Hprefix trace s) as (k & ->).
  assert (started_inputs configuration (take k trace) = []) as ->.
  { apply started_inputs_none. intros i Hi. apply (Hnone i).
    eapply subseteq_take, Hi. }
  apply app_nil_r.
Qed.

End RunFacts.

Section StatusFacts.
Context `{Host}.
Implicit Types (configuration : IConfiguration.t) (s : State) (trace : list event).

(** A zero status certifies the run: when all the units have completed
    and the status is 0, every unit compiled without error, had its
    binary captured and passed. *)
Theorem zero_status_means_all_passed (c config : option string)
    (exports : Module_exports) (trace : list event) :
  completions trace ≡ₚ seq 0 (length (testEntryFiles (configured exports))) →
  exit_status (asp c config (inr exports) trace initial) = 0%Z →
  all_pass (configured exports) (started c config exports) trace.
Proof.
  intros Hperm. rewrite asp_started.
  destruct (started_state c config exports) as (Hcount & _).
  destruct (run (configured exports) trace (started c config exports))
    as [[] s'|code s'] eqn:Hrun.
  2:{ intros Hzero. simpl in Hzero. apply run_exit_code in Hrun. lia. }
  intros _ before i error after s Htrace Hbefore Hi.
  assert (Hunits : of_units (configured exports) trace).
  { unfold of_units. rewrite Hperm. apply Forall_forall. intros j Hj.
    apply lookup_lt_is_Some. apply elem_of_seq in Hj. lia. }
  assert (Hne : completions trace ≠ []).
  { rewrite Htrace. unfold completions. rewrite flat_map_app. simpl.
    intros Hnil. apply app_eq_nil in Hnil as [_ ?]. discriminate. }
  pose proof (run_returned_not_failing _ _ _ _ Hunits Hne Hrun) as Hnot.
  pose proof (run_count _ _ _ _ Hunits Hrun) as Hc.
  rewrite Hperm, length_seq in Hc.
  rewrite Htrace, run_app, Hbefore in Hrun.
  apply run_cons_returned in Hrun as (s1 & He & Hafter).
  apply handle_completed_returned in He as (-> & binary & Hb & _ & Hf1 & _);
    [|exact Hi].
  split; [reflexivity|]. exists binary. split; [assumption|].
  destruct (passes (configured exports) binary) eqn:Hp; [reflexivity|].
  rewrite orb_true_r in Hf1.
  rewrite (run_failed_mono _ _ _ _ Hafter Hf1), andb_true_r in Hnot.
  apply Z.eqb_neq in Hnot. lia.
Qed.

End StatusFacts.

(** ** The further properties on the host of the examples *)

Lemma example_needs_a_new_folder_witness :
  testFolder (H:=Demo.host) ∈ Demo.without_example
  ∧ exampleFile (H:=Demo.host)
    ∉ settled (init (H:=Demo.host) (untouched Demo.without_example [])).
Proof.
  assert (Hfolder : testFolder (H:=Demo.host) ∈ Demo.without_example).
  { unfold Demo.without_example. rewrite elem_of_union, !elem_of_singleton.
    right. vm_compute. reflexivity. }
  split; [assumption|].
  apply (example_needs_a_new_folder (H:=Demo.host) Demo.without_example []).
  - assumption.
  - unfold Demo.without_example. rewrite elem_of_union, !elem_of_singleton.
    intros [Heq|Heq]; vm_compute in Heq; discriminate Heq.
  - intros Heq; vm_compute in Heq; discriminate Heq.
  - intros Heq; vm_compute in Heq; discriminate Heq.
  - intros Heq; vm_compute in Heq; discriminate Heq.
Defined.

Lemma redundant_patterns_change_nothing_witness :
  testEntryFiles (H:=Demo.host)
    (Demo.including ["assembly/__tests__/a.*"; "assembly/__tests__/**/*.include.ts"])
  = testEntryFiles (H:=Demo.host) (Demo.including ["assembly/__tests__/a.*"]).
Proof.
  apply (redundant_patterns_change_nothing (H:=Demo.host) _ _
           ["assembly/__tests__/**/*.include.ts"]).
  - reflexivity.
  - reflexivity.
  - intros pattern file ->%list_elem_of_singleton Hfile.
    exists "assembly/__tests__/a.*". split; [left|].
    vm_compute in Hfile. apply list_elem_of_singleton in Hfile as ->.
    vm_compute. left.
Defined.

Lemma exports_other_than_objects_witness :
  asp (H:=Demo.host) None None (inr (Js.Str "not an object")) Demo.both_pass initial
  = asp (H:=Demo.host) None None (inr (Js.Object empty_configuration))
      Demo.both_pass initial.
Proof.
  apply (exports_other_than_objects (H:=Demo.host)). intros o. discriminate.
Defined.

Lemma binary_of_a_unit_witness :
  binaries
    (final_state
       (run (H:=Demo.host) empty_configuration
          [ WriteFile 0 "output.wasm" Demo.failing;
            WriteFile 1 "output.wasm" Demo.failing;
            WriteFile 0 "output.wasm" Demo.passing ] initial))
  !! 0 = Some Demo.passing.
Proof.
  destruct (binary_of_a_unit (H:=Demo.host) empty_configuration 0 Demo.a_spec
              [ WriteFile 0 "output.wasm" Demo.failing;
                WriteFile 1 "output.wasm" Demo.failing;
                WriteFile 0 "output.wasm" Demo.passing ] initial
              (final_state
                 (run (H:=Demo.host) empty_configuration
                    [ WriteFile 0 "output.wasm" Demo.failing;
                      WriteFile 1 "output.wasm" Demo.failing;
                      WriteFile 0 "output.wasm" Demo.passing ] initial))
              eq_refl eq_refl) as [Hown _].
  rewrite Hown. vm_compute. reflexivity.
Defined.

Lemma failures_wait_for_the_last_unit_witness :
  exit_status
    (asp (H:=Demo.host) None None (inr Js.Undefined)
       [WriteFile 0 "output.wasm" Demo.failing; Completed 0 None] initial) = 0%Z
  ∧ failed
      (final_state
         (asp (H:=Demo.host) None None (inr Js.Undefined)
            [WriteFile 0 "output.wasm" Demo.failing; Completed 0 None] initial))
    = true.
Proof.
  split; [|vm_compute; reflexivity].
  apply (failures_wait_for_the_last_unit (H:=Demo.host)).
  - apply Forall_cons. split; [vm_compute; eauto|apply Forall_nil_2].
  - intros before i error after s Htrace Hrun.
    destruct before as [|e0 before]; [discriminate Htrace|].
    injection Htrace as <- Htrace.
    destruct before as [|e1 before].
    + injection Htrace as <- <- <-. vm_compute in Hrun. injection Hrun as <-.
      split; [reflexivity|]. vm_compute. eauto.
    + injection Htrace as <- Htrace. destruct before; discriminate Htrace.
  - vm_compute. lia.
Defined.

Lemma pending_counter_bounds_witness :
  (0 ≤ count (final_state
                (asp (H:=Demo.host) None None (inr Js.Undefined)
                   Demo.out_of_order initial)) ≤ 2)%Z.
Proof.
  apply (pending_counter_bounds (H:=Demo.host) None None Js.Undefined Demo.out_of_order).
  - apply Forall_cons. split; [vm_compute; eauto|].
    apply Forall_cons. split; [vm_compute; eauto|apply Forall_nil_2].
  - change (NoDup [1; 0]). apply NoDup_cons. split; [|apply NoDup_singleton].
    intros Hin%list_elem_of_singleton. discriminate Hin.
Defined.

Lemma zero_status_means_all_passed_witness :
  ∃ binary,
    binaries
      (final_state
         (run (H:=Demo.host) empty_configuration (take 3 Demo.both_pass)
            (started (H:=Demo.host) None None Js.Undefined)))
    !! 0 = Some binary
    ∧ passes (H:=Demo.host) empty_configuration binary = true.
Proof.
  assert (Hall : all_pass (H:=Demo.host) (configured (H:=Demo.host) Js.Undefined)
                   (started (H:=Demo.host) None None Js.Undefined) Demo.both_pass).
  { apply (zero_status_means_all_passed (H:=Demo.host)).
    - apply perm_swap.
    - vm_compute. reflexivity. }
  destruct (Hall (take 3 Demo.both_pass) 0 None []
              (final_state
                 (run (H:=Demo.host) empty_configuration (take 3 Demo.both_pass)
                    (started (H:=Demo.host) None None Js.Undefined))))
    as (_ & binary & Hbinary & Hpasses).
  - reflexivity.
  - reflexivity.
  - vm_compute. eauto.
  - exists binary. split; assumption.
Defined.

